(** * Scheduling and dispatch core of the automation orchestrator

    A shallow embedding of the Python modules [util], [orchestrator],
    [executor] and the scheduler and dispatch part of [gui_controller],
    followed by the properties of the schedule matcher, the clock, the
    duplicate guard, the dispatch queue, the command builder, the runner,
    the scheduler tick and the controller.

    Conventions of the embedding.
    - A Python [str] is a Rocq [string] whose characters are the code points
      U+0000..U+00FF.  The character classes used by [str.strip],
      [str.lower] and [str.isdigit] are those of CPython on that range.
    - Python integers are unbounded and modelled on [Z]; [int] refuses a
      string of more than 4300 digits, the default of the interpreter's
      limit on the conversion of digit strings.
    - A [dict] is a [gmap] with string keys, a [set] of strings is a [gset].
    - Code that can raise returns a [result]; code that mutates objects
      threads the state explicitly. *)

From Stdlib Require Import ZArith String Ascii List Bool Lia DecimalString.
From stdpp Require Import base option strings gmap list.
From Stdlib Require Import DecimalPos.

Local Open Scope string_scope.
Local Open Scope Z_scope.

(* ===================================================================== *)
(** ** Python string primitives *)
(* ===================================================================== *)

Module PyStr.

(** The one-character string holding code point [n]. *)
Definition chr (n : nat) : string := String (ascii_of_nat n) EmptyString.

(** The double-quote character and the one-character string holding it. *)
Definition dquote_char : ascii := ascii_of_nat 34.
Definition dquote : string := chr 34.

Definition code (c : ascii) : nat := nat_of_ascii c.

(** [str.isspace] on one character, for code points below 256. *)
Definition isspace (c : ascii) : bool :=
  let n := code c in
  ((9 <=? n) && (n <=? 13))%nat || ((28 <=? n) && (n <=? 32))%nat
  || (n =? 133)%nat || (n =? 160)%nat.

(** ASCII decimal digits, the only characters of the range [int] accepts. *)
Definition is_decimal (c : ascii) : bool :=
  let n := code c in ((48 <=? n) && (n <=? 57))%nat.

(** [str.isdigit] on one character: the decimal digits and the
    superscript digits U+00B2, U+00B3, U+00B9. *)
Definition isdigit_char (c : ascii) : bool :=
  let n := code c in
  is_decimal c || (n =? 178)%nat || (n =? 179)%nat || (n =? 185)%nat.

(** [str.lower] on one character: A-Z and the Latin-1 capitals. *)
Definition lower_char (c : ascii) : ascii :=
  let n := code c in
  if ((65 <=? n) && (n <=? 90))%nat
     || ((192 <=? n) && (n <=? 222) && negb (n =? 215))%nat
  then ascii_of_nat (n + 32) else c.

Fixpoint lower (s : string) : string :=
  match s with
  | EmptyString => EmptyString
  | String c r => String (lower_char c) (lower r)
  end.

Definition is_empty (s : string) : bool :=
  match s with EmptyString => true | _ => false end.

Fixpoint lstrip (s : string) : string :=
  match s with
  | EmptyString => EmptyString
  | String c r => if isspace c then lstrip r else s
  end.

Fixpoint rstrip (s : string) : string :=
  match s with
  | EmptyString => EmptyString
  | String c r =>
      let r' := rstrip r in
      if is_empty r' && isspace c then EmptyString else String c r'
  end.

(** [s.strip()] *)
Definition strip (s : string) : string := rstrip (lstrip s).

Fixpoint all_chars (p : ascii -> bool) (s : string) : bool :=
  match s with
  | EmptyString => true
  | String c r => p c && all_chars p r
  end.

(** [s.isdigit()]: non-empty and every character is a digit. *)
Definition isdigit (s : string) : bool :=
  negb (is_empty s) && all_chars isdigit_char s.

Fixpoint int_acc (acc : Z) (s : string) : option Z :=
  match s with
  | EmptyString => Some acc
  | String c r =>
      if is_decimal c
      then int_acc (10 * acc + Z.of_nat (code c - 48)) r
      else None
  end.

(** The default of [sys.get_int_max_str_digits()]: the longest digit
    string [int] converts. *)
Definition int_max_str_digits : Z := 4300.

(** [int(s)] for a string [s] made of digit characters ([s.isdigit()]
    holds where the program calls it).  [None] stands for [ValueError]:
    the superscript digits pass [isdigit] but are refused by [int], and so
    is a string of more than [int_max_str_digits] digits, leading zeros
    counted. *)
Definition int (s : string) : option Z :=
  if is_empty s then None
  else if int_max_str_digits <? Z.of_nat (String.length s) then None
  else int_acc 0 s.

Fixpoint startswith (p s : string) : bool :=
  match p, s with
  | EmptyString, _ => true
  | String a p', String b s' => Ascii.eqb a b && startswith p' s'
  | String _ _, EmptyString => false
  end.

(** [sub in s] *)
Fixpoint contains (sub s : string) : bool :=
  startswith sub s ||
  match s with
  | EmptyString => false
  | String _ r => contains sub r
  end.

(** [s.split(sep)] for a one-character separator. *)
Fixpoint split (sep : ascii) (s : string) : list string :=
  match s with
  | EmptyString => [EmptyString]
  | String c r =>
      if Ascii.eqb c sep then EmptyString :: split sep r
      else match split sep r with
           | h :: t => String c h :: t
           | [] => [String c EmptyString]
           end
  end.

(** [sep.join(l)] *)
Fixpoint join (sep : string) (l : list string) : string :=
  match l with
  | [] => EmptyString
  | [x] => x
  | x :: r => x ++ sep ++ join sep r
  end.

(** [s.replace(old, new)] for a one-character [old]. *)
Fixpoint replace_char (old : ascii) (new : string) (s : string) : string :=
  match s with
  | EmptyString => EmptyString
  | String c r =>
      (if Ascii.eqb c old then new else String c EmptyString)
        ++ replace_char old new r
  end.

(** [str(n)] for an integer. *)
Definition of_Z (n : Z) : string := NilZero.string_of_int (Z.to_int n).

(** Rendering of an optional string inside an f-string or a percent
    format: [None] prints as the word None. *)
Definition fmt (o : option string) : string :=
  match o with Some s => s | None => "None" end.

End PyStr.

(* ===================================================================== *)
(** ** util.py: time parts, cell normalisation, schedule matching *)
(* ===================================================================== *)

Module Util.
Import PyStr.

(** [NowParts]: the seven comparison dimensions of the current time. *)
Record NowParts := mkNowParts {
  year : string;
  month_name : string;
  week_of_month : string;
  weekday_name : string;
  day : string;
  hour : string;
  minute : string
}.

(** A cell value as [_normalize_cell] distinguishes them: [None], a float
    NaN, a float with an integral value, and anything else, given by its
    [str()] rendering (for a [str], the string itself). *)
Inductive cell :=
| CNone
| CNaN
| CWhole (n : Z)
| CText (s : string).

Definition _is_nan (value : cell) : bool :=
  match value with CNaN => true | _ => false end.

Definition is_None (value : cell) : bool :=
  match value with CNone => true | _ => false end.

Definition _normalize_cell (value : cell) : string :=
  if is_None value || _is_nan value then EmptyString
  else
    match value with
    | CWhole n => of_Z n
    | CText s => strip s
    | CNone | CNaN => EmptyString
    end.

(** One pass of the separator loop: every token is split on [sep] and the
    pieces are concatenated in order. *)
Definition split_all (sep : ascii) (tokens : list string) : list string :=
  flat_map (split sep) tokens.

(** The token list after the loop over the three separators, before
    blank pieces are dropped. *)
Definition split_pieces (raw : string) : list string :=
  split_all "," (split_all "|" (split_all ";" [raw])).

Definition _split_values (raw : string) : list string :=
  if is_empty raw then []
  else map strip (List.filter (fun t => negb (is_empty (strip t))) (split_pieces raw)).

(** The inner function of [_matches]. *)
Definition token_matches (token current : string) : bool :=
  let token := strip token in
  let current := strip current in
  if is_empty token || is_empty current then false
  else
    let by_substring := contains current token in
    if isdigit token && isdigit current then
      match int token, int current with
      | Some a, Some b => a =? b
      | _, _ => by_substring
      end
    else by_substring.

Definition _matches (field_value : cell) (now_value : string) : bool :=
  let raw := _normalize_cell field_value in
  if is_empty raw then false
  else if String.eqb (lower raw) "todos" then true
  else
    let candidatos := _split_values raw in
    match candidatos with
    | _ :: _ => existsb (fun token => token_matches token now_value) candidatos
    | [] => token_matches raw now_value
    end.

(** [row.get(key)] of a mapping: [None] when the key is absent. *)
Definition row_get (row : gmap string cell) (key : string) : cell :=
  match row !! key with Some v => v | None => CNone end.

Definition should_enqueue (row : gmap string cell) (now : NowParts) : bool :=
  _matches (row_get row "ano") (year now)
  && _matches (row_get row "meses_do_ano") (month_name now)
  && _matches (row_get row "semanas_do_mes") (week_of_month now)
  && _matches (row_get row "dias_da_semana") (weekday_name now)
  && _matches (row_get row "dia") (day now)
  && _matches (row_get row "hora") (hour now)
  && _matches (row_get row "minuto") (minute now).

(** A queue item: a dictionary with the keys processo, ferramenta and
    caminho, all holding strings. *)
Definition to_process_item (row : gmap string cell) : gmap string string :=
  <["processo" := _normalize_cell (row_get row "Nome_Processo")]>
  (<["ferramenta" := _normalize_cell (row_get row "Ferramenta")]>
  (<["caminho" := _normalize_cell (row_get row "Caminho")]> ∅)).

End Util.

(* ===================================================================== *)
(** ** Exceptions and stateful computations *)
(* ===================================================================== *)

Module Eff.

(** The exceptions the modelled code raises: [ValueError], [queue.Empty]
    and a database error, each with the text [str(exc)] gives. *)
Inductive exn :=
| ValueError (msg : string)
| QueueEmpty
| DBError (msg : string).

Definition exn_str (e : exn) : string :=
  match e with
  | ValueError msg => msg
  | QueueEmpty => EmptyString
  | DBError msg => msg
  end.

Inductive result (A : Type) :=
| Ok (a : A)
| Raise (e : exn).
Arguments Ok {A} a.
Arguments Raise {A} e.

(** A method mutating a state of type [S]: the state reached is returned
    with the outcome, also when the method raises. *)
Definition M (S A : Type) : Type := S -> result A * S.

Definition ret {S A} (a : A) : M S A := fun s => (Ok a, s).

Definition raise {S A} (e : exn) : M S A := fun s => (Raise e, s).

Definition bind {S A B} (c : M S A) (k : A -> M S B) : M S B :=
  fun s =>
    match c s with
    | (Ok a, s') => k a s'
    | (Raise e, s') => (Raise e, s')
    end.

(** [try: c  except Exception as exc: h exc] *)
Definition try_except {S A} (c : M S A) (h : exn -> M S A) : M S A :=
  fun s =>
    match c s with
    | (Ok a, s') => (Ok a, s')
    | (Raise e, s') => h e s'
    end.

Definition gets {S A} (f : S -> A) : M S A := fun s => (Ok (f s), s).

Definition modify {S} (f : S -> S) : M S unit := fun s => (Ok tt, f s).

(** [for x in l: body x], stopping at the first exception. *)
Fixpoint for_each {S A} (l : list A) (body : A -> M S unit) : M S unit :=
  match l with
  | [] => ret tt
  | x :: r => bind (body x) (fun _ => for_each r body)
  end.

End Eff.

Notation "x <-- c ;; k" := (Eff.bind c (fun x => k))
  (at level 100, c at next level, right associativity).
Notation "c ;;; k" := (Eff.bind c (fun _ => k))
  (at level 100, k at level 200, right associativity).

(* ===================================================================== *)
(** ** models.py and db.py: process rows and the log sink *)
(* ===================================================================== *)

Module Models.

Record ProcessConfig := mkProcessConfig {
  id : option Z;
  Nome_Processo : string;
  Ferramenta : string;
  Caminho : string;
  ano : string;
  meses_do_ano : string;
  semanas_do_mes : string;
  dias_da_semana : string;
  dia : string;
  hora : string;
  minuto : string;
  enabled : bool
}.

(** A row of the table of logs; the time stamp, taken from the clock when
    the row is written, is left out. *)
Record LogEntry := mkLogEntry {
  process_id : option Z;
  stream : string;
  message : string
}.

End Models.

Module DB.
Import Eff Models Util.

(** The store behind [OrchestratorDB].  [processes] holds the rows of the
    table of processes in the order of the listing query.  [faults] is the
    outcome of the coming operations on the connection, one entry per
    operation: [Some msg] makes that operation raise, [None] or an
    exhausted list lets it succeed. *)
Record OrchestratorDB := mkDB {
  processes : list ProcessConfig;
  logs : list LogEntry;
  faults : list (option string)
}.

(** Opening the connection for one operation: the next outcome is taken. *)
Definition connect : M OrchestratorDB unit :=
  fun db =>
    match faults db with
    | Some msg :: rest =>
        (Raise (DBError msg), mkDB (processes db) (logs db) rest)
    | None :: rest => (Ok tt, mkDB (processes db) (logs db) rest)
    | [] => (Ok tt, db)
    end.

Definition list_processes (enabled_only : bool) : M OrchestratorDB (list ProcessConfig) :=
  connect ;;;
  gets (fun db =>
    if enabled_only then List.filter enabled (processes db) else processes db).

Definition append_log (message stream : string) : M OrchestratorDB unit :=
  connect ;;;
  modify (fun db =>
    mkDB (processes db) (logs db ++ [mkLogEntry None stream message]) (faults db)).

Definition process_to_schedule_row (proc : ProcessConfig) : gmap string cell :=
  <["Nome_Processo" := CText (Nome_Processo proc)]>
  (<["Ferramenta" := CText (Ferramenta proc)]>
  (<["Caminho" := CText (Caminho proc)]>
  (<["ano" := CText (ano proc)]>
  (<["meses_do_ano" := CText (meses_do_ano proc)]>
  (<["semanas_do_mes" := CText (semanas_do_mes proc)]>
  (<["dias_da_semana" := CText (dias_da_semana proc)]>
  (<["dia" := CText (dia proc)]>
  (<["hora" := CText (hora proc)]>
  (<["minuto" := CText (minuto proc)]> ∅))))))))).

End DB.

(* ===================================================================== *)
(** ** orchestrator.py: queue, duplicate guard, scheduler *)
(* ===================================================================== *)

Module Orchestrator.
Import PyStr Eff Models Util DB.

(** A queue item, [dict[str, str]]. *)
Abbreviation Item := (gmap string string).

(** [item.get(key, '')] *)
Definition item_get (item : Item) (key : string) : string :=
  match item !! key with Some v => v | None => EmptyString end.

(** *** InMemoryQueue: the deque is the list of its items, oldest first. *)
Record InMemoryQueue := mkQueue { _dq : list Item }.

Definition new_queue : InMemoryQueue := mkQueue [].

Definition put (item : Item) : M InMemoryQueue unit :=
  modify (fun q => mkQueue (_dq q ++ [item])).

Definition get : M InMemoryQueue Item :=
  fun q =>
    match _dq q with
    | [] => (Raise QueueEmpty, q)
    | item :: rest => (Ok item, mkQueue rest)
    end.

Definition empty (q : InMemoryQueue) : bool :=
  match _dq q with [] => true | _ => false end.

Definition len (q : InMemoryQueue) : nat := length (_dq q).

Definition snapshot (q : InMemoryQueue) : list Item := _dq q.

(** *** poll_due_processes *)
Fixpoint due_loop (now_parts : NowParts) (procs : list ProcessConfig)
    (due : list Item) : list Item :=
  match procs with
  | [] => due
  | proc :: rest =>
      let row := process_to_schedule_row proc in
      due_loop now_parts rest
        (if should_enqueue row now_parts then due ++ [to_process_item row]
         else due)
  end.

Definition poll_due_processes (now_parts : NowParts) : M OrchestratorDB (list Item) :=
  procs <-- list_processes true ;;
  ret (due_loop now_parts procs []).

(** *** DuplicateGuard *)
Record DuplicateGuard := mkGuard {
  _last_minute_key : option string;
  _seen : gset string
}.

Definition new_guard : DuplicateGuard := mkGuard None ∅.

Definition minute_key (now_parts : NowParts) : string :=
  year now_parts ++ month_name now_parts ++ day now_parts
    ++ hour now_parts ++ minute now_parts.

Definition reset_if_new_minute (now_parts : NowParts) : M DuplicateGuard unit :=
  modify (fun g =>
    if bool_decide (Some (minute_key now_parts) = _last_minute_key g) then g
    else mkGuard (Some (minute_key now_parts)) ∅).

Definition job_key (item : Item) : string :=
  item_get item "processo" ++ "|" ++ item_get item "ferramenta"
    ++ "|" ++ item_get item "caminho".

Definition allow (item : Item) (now_parts : NowParts) : M DuplicateGuard bool :=
  reset_if_new_minute now_parts ;;;
  (fun g =>
     let key := job_key item in
     if bool_decide (key ∈ _seen g) then (Ok false, g)
     else (Ok true, mkGuard (_last_minute_key g) ({[key]} ∪ _seen g))).

(** *** DBBackedScheduler.  [logging] collects the records handed to the
    logging module. *)
Record DBBackedScheduler := mkScheduler {
  db : OrchestratorDB;
  out_queue : InMemoryQueue;
  poll_seconds : Z;
  log_to_db : bool;
  _guard : DuplicateGuard;
  logging : list string
}.

Definition new_scheduler (d : OrchestratorDB) (q : InMemoryQueue)
    (poll : Z) (log : bool) : DBBackedScheduler :=
  mkScheduler d q poll log new_guard [].

(** Running a method of a member object inside the scheduler. *)
Definition on_db {A} (c : M OrchestratorDB A) : M DBBackedScheduler A :=
  fun s =>
    let '(r, d) := c (db s) in
    (r, mkScheduler d (out_queue s) (poll_seconds s) (log_to_db s) (_guard s) (logging s)).

Definition on_queue {A} (c : M InMemoryQueue A) : M DBBackedScheduler A :=
  fun s =>
    let '(r, q) := c (out_queue s) in
    (r, mkScheduler (db s) q (poll_seconds s) (log_to_db s) (_guard s) (logging s)).

Definition on_guard {A} (c : M DuplicateGuard A) : M DBBackedScheduler A :=
  fun s =>
    let '(r, g) := c (_guard s) in
    (r, mkScheduler (db s) (out_queue s) (poll_seconds s) (log_to_db s) g (logging s)).

Definition logging_info (msg : string) : M DBBackedScheduler unit :=
  modify (fun s =>
    mkScheduler (db s) (out_queue s) (poll_seconds s) (log_to_db s) (_guard s)
      (logging s ++ [msg])).

(** The body of the loop of [tick_once] for one due item. *)
Definition tick_item (now_parts : NowParts) (item : Item) : M DBBackedScheduler unit :=
  ok <-- on_guard (allow item now_parts) ;;
  if negb ok then ret tt
  else
    logging_info ("SCHEDULER - Inserindo na fila: " ++ fmt (item !! "processo")) ;;;
    flag <-- gets log_to_db ;;
    (if flag : bool
     then on_db (append_log
                   ("Enfileirado: " ++ fmt (item !! "processo")
                      ++ " (" ++ fmt (item !! "ferramenta") ++ ")")
                   "log")
     else ret tt) ;;;
    on_queue (put item).

(** [tick_once]; [now_parts] is what [get_now_parts()] reads from the clock. *)
Definition tick_once (now_parts : NowParts) : M DBBackedScheduler unit :=
  due <-- on_db (poll_due_processes now_parts) ;;
  for_each due (tick_item now_parts).

(** The operating window of the scheduler. *)
Definition in_window (hour : Z) : bool := (7 <=? hour) && (hour <? 18).

(** [loop]: every turn reads the hour for the loop condition and, inside
    [tick_once], the time parts; [clock] lists these readings.  [None] is
    returned when the readings are used up before the loop has ended. *)
Fixpoint loop (clock : list (Z * NowParts)) (s : DBBackedScheduler)
    : option (result unit) * DBBackedScheduler :=
  match clock with
  | [] => (None, s)
  | (hour, now_parts) :: rest =>
      if in_window hour then
        match tick_once now_parts s with
        | (Ok _, s') => loop rest s'
        | (Raise e, s') => (Some (Raise e), s')
        end
      else (Some (Ok tt), s)
  end.

End Orchestrator.

(* ===================================================================== *)
(** ** executor.py: building the command of a queue item *)
(* ===================================================================== *)

Module Executor.
Import PyStr Eff Orchestrator.

(** What the command builder asks of the machine it runs on: the file
    system tests [os.path.exists] and [os.path.isfile], the tokenizer
    [shlex.split(raw, posix=False)] ([None] when it raises [ValueError])
    and [sys.executable]. *)
Record Host := mkHost {
  path_exists : string -> bool;
  path_isfile : string -> bool;
  shlex_split : string -> option (list string);
  sys_executable : string
}.

(** *** The tokenizer of the standard library in its non-POSIX mode with
    [whitespace_split] set: blanks separate tokens, a quote opening a
    token runs to the matching quote and closes the token, quotes are
    kept, and a quote left open is an error. *)
Inductive lex_state := LexSpace | LexWord | LexQuote (q : ascii).

Definition shlex_whitespace (c : ascii) : bool :=
  let n := code c in
  (n =? 32)%nat || (n =? 9)%nat || (n =? 13)%nat || (n =? 10)%nat.

Definition shlex_quote (c : ascii) : bool :=
  let n := code c in (n =? 39)%nat || (n =? 34)%nat.

Definition snoc (tok : string) (c : ascii) : string :=
  tok ++ String c EmptyString.

Fixpoint shlex_tokens (st : lex_state) (tok : string) (s : string)
    : option (list string) :=
  match st, s with
  | LexSpace, EmptyString => Some []
  | LexSpace, String c r =>
      if shlex_whitespace c then shlex_tokens LexSpace EmptyString r
      else if shlex_quote c then shlex_tokens (LexQuote c) (String c EmptyString) r
      else shlex_tokens LexWord (String c EmptyString) r
  | LexWord, EmptyString => Some [tok]
  | LexWord, String c r =>
      if shlex_whitespace c
      then option_map (cons tok) (shlex_tokens LexSpace EmptyString r)
      else shlex_tokens LexWord (snoc tok c) r
  | LexQuote _, EmptyString => None
  | LexQuote q, String c r =>
      if Ascii.eqb c q
      then option_map (cons (snoc tok c)) (shlex_tokens LexSpace EmptyString r)
      else shlex_tokens (LexQuote q) (snoc tok c) r
  end.

Definition shlex_split_nonposix (raw : string) : option (list string) :=
  shlex_tokens LexSpace EmptyString raw.

(** *** [os.path.splitext] of the Windows path module: the extension
    starts at the last dot, provided that dot comes after the last
    separator and after a character of the file name that is not a dot. *)
Fixpoint rfind_from (c : ascii) (s : string) (i last : Z) : Z :=
  match s with
  | EmptyString => last
  | String a r => rfind_from c r (i + 1) (if Ascii.eqb a c then i else last)
  end.

Definition rfind (c : ascii) (s : string) : Z := rfind_from c s 0 (-1).

Definition backslash : ascii := ascii_of_nat 92.

Fixpoint has_non_dot (s : string) (from to : nat) : bool :=
  match s with
  | EmptyString => false
  | String a r =>
      match to with
      | O => false
      | S to' =>
          match from with
          | O => negb (Ascii.eqb a ".") || has_non_dot r O to'
          | S from' => has_non_dot r from' to'
          end
      end
  end.

Definition splitext (p : string) : string * string :=
  let sepIndex := Z.max (rfind backslash p) (rfind "/" p) in
  let dotIndex := rfind "." p in
  if (sepIndex <? dotIndex)
     && has_non_dot p (Z.to_nat (sepIndex + 1)) (Z.to_nat dotIndex)
  then (substring 0 (Z.to_nat dotIndex) p,
        substring (Z.to_nat dotIndex) (String.length p - Z.to_nat dotIndex) p)
  else (p, EmptyString).

(** *** The functions of the module *)

Definition build_uipath_command (robot_path process_name : string) : list string :=
  [robot_path; "execute"; "--process-name"; process_name].

(** The downward loop [for i in range(len(tokens), 0, -1)] looking for a
    prefix of the tokens that, joined by blanks, passes [test]. *)
Fixpoint find_prefix (test : string -> bool) (tokens : list string) (i : nat)
    : option (list string) :=
  match i with
  | O => None
  | S i' =>
      let candidate := join " " (firstn i tokens) in
      if test candidate then Some (candidate :: skipn i tokens)
      else find_prefix test tokens i'
  end.

Definition starts_with_quote (s : string) : bool :=
  startswith dquote s || startswith "'" s.

Definition _split_command_windows (h : Host) (raw : string) : list string :=
  let raw := strip raw in
  if is_empty raw then []
  else if path_exists h raw then [raw]
  else
    let tokens :=
      match shlex_split h raw with Some ts => ts | None => [raw] end in
    if (1 <? length tokens)%nat && negb (starts_with_quote (lstrip raw)) then
      match find_prefix (path_isfile h) tokens (length tokens) with
      | Some found => found
      | None =>
          match find_prefix (path_exists h) tokens (length tokens) with
          | Some found => found
          | None => tokens
          end
      end
    else tokens.

(** [str(item.get(key) or "").strip()] *)
Definition field (item : Item) (key : string) : string :=
  strip (match item !! key with Some v => v | None => EmptyString end).

Definition _ps_quote (value : string) : string :=
  "'" ++ replace_char "'" "''" value ++ "'".

Definition msg_missing : string :=
  "Item inv" ++ chr 225 ++ "lido: ferramenta/caminho ausentes".

Definition msg_empty_command : string :=
  "Item inv" ++ chr 225 ++ "lido: comando vazio".

Definition msg_not_executable (entry ext : string) : string :=
  "Caminho aponta para arquivo n" ++ chr 227 ++ "o-execut" ++ chr 225
    ++ "vel no Windows: '" ++ entry ++ "' (extens" ++ chr 227 ++ "o '"
    ++ ext ++ "'). "
    ++ "Use .exe/.bat/.cmd/.ps1/.py ou um atalho .lnk para um execut"
    ++ chr 225 ++ "vel.".

Definition one_of (s : string) (l : list string) : bool :=
  existsb (String.eqb s) l.

Definition build_subprocess_command (h : Host) (item : Item) : result (list string) :=
  let tool := field item "ferramenta" in
  let path := field item "caminho" in
  let process_name := field item "processo" in
  if is_empty tool || is_empty path then Raise (ValueError msg_missing)
  else if String.eqb (lower tool) "uipath"
  then Ok (build_uipath_command path process_name)
  else
    match _split_command_windows h path with
    | [] => Raise (ValueError msg_empty_command)
    | entry :: rest =>
        let tokens := entry :: rest in
        let ext := lower (snd (splitext entry)) in
        if one_of ext [".py"; ".pyw"] then Ok (sys_executable h :: tokens)
        else if one_of ext [".bat"; ".cmd"] then Ok ("cmd.exe" :: "/c" :: tokens)
        else if String.eqb ext ".ps1" then
          Ok ("powershell" :: "-NoProfile" :: "-ExecutionPolicy" :: "Bypass"
                :: "-File" :: entry :: rest)
        else if String.eqb ext ".lnk" then
          let arg_list :=
            match rest with
            | [] => "@()"
            | _ :: _ => "@(" ++ join "," (map _ps_quote rest) ++ ")"
            end in
          Ok ["powershell"; "-NoProfile"; "-ExecutionPolicy"; "Bypass"; "-Command";
              "Start-Process -FilePath " ++ _ps_quote entry
                ++ " -ArgumentList " ++ arg_list ++ " -Wait"]
        else if path_exists h entry && path_isfile h entry
                && negb (one_of ext [".exe"; ".com"])
        then Raise (ValueError (msg_not_executable entry ext))
        else Ok tokens
    end.

End Executor.

(* ===================================================================== *)
(** ** gui_controller.py: the scheduler tick and the start of items *)
(* ===================================================================== *)

Module Controller.
Import PyStr Eff Util DB Orchestrator Executor.

(** The states of the [QProcess] object. *)
Inductive ProcessState := NotRunning | Starting | Running.

Record QProcess := mkProcess {
  state : ProcessState;
  program : string;
  arguments : list string
}.

(** The signals of the controller, in the order of their declaration. *)
Inductive signal :=
| console_text (s : string)
| log_text (s : string)
| status_text (s : string)
| processes_changed
| scheduler_state_changed (b : bool)
| process_running_changed (b : bool)
| queue_changed (items : list Item)
| running_item_changed (item : option Item).

(** The controller.  Its [db] and [queue] are the very objects handed to
    the scheduler, so they are kept once, inside [_scheduler].  [emitted]
    lists the signals emitted so far; [_timer_active] is the state of the
    timer that calls [_on_scheduler_tick]. *)
Record OrchestratorController := mkController {
  _scheduler : DBBackedScheduler;
  _timer_active : bool;
  _process : QProcess;
  _running_scheduler : bool;
  _running_item : option Item;
  emitted : list signal
}.

Definition new_controller (d : OrchestratorDB) : OrchestratorController :=
  mkController (new_scheduler d new_queue 60 true) false
    (mkProcess NotRunning EmptyString []) false None [].

Definition queue (c : OrchestratorController) : InMemoryQueue :=
  out_queue (_scheduler c).

Definition emit (sig : signal) : M OrchestratorController unit :=
  modify (fun c =>
    mkController (_scheduler c) (_timer_active c) (_process c)
      (_running_scheduler c) (_running_item c) (emitted c ++ [sig])).

Definition on_scheduler {A} (m : M DBBackedScheduler A) : M OrchestratorController A :=
  fun c =>
    let '(r, s) := m (_scheduler c) in
    (r, mkController s (_timer_active c) (_process c)
          (_running_scheduler c) (_running_item c) (emitted c)).

Definition set_running_item (item : option Item) : M OrchestratorController unit :=
  modify (fun c =>
    mkController (_scheduler c) (_timer_active c) (_process c)
      (_running_scheduler c) item (emitted c)).

Definition set_process (p : QProcess) : M OrchestratorController unit :=
  modify (fun c =>
    mkController (_scheduler c) (_timer_active c) p
      (_running_scheduler c) (_running_item c) (emitted c)).

Definition set_scheduler_flags (running timer : bool) : M OrchestratorController unit :=
  modify (fun c =>
    mkController (_scheduler c) timer (_process c)
      running (_running_item c) (emitted c)).

Definition _append_log (message stream : string) : M OrchestratorController unit :=
  try_except (on_scheduler (on_db (append_log message stream))) (fun _ => ret tt) ;;;
  emit (log_text message).

Definition _emit_queue_changed : M OrchestratorController unit :=
  q <-- gets queue ;;
  emit (queue_changed (snapshot q)).

Definition newline : string := chr 10.

Definition msg_empty_cmd : string :=
  "Comando vazio (n" ++ chr 227 ++ "o executado)".

Definition _start_item (h : Host) (item : Item) : M OrchestratorController unit :=
  match build_subprocess_command h item with
  | Raise e => raise e
  | Ok [] =>
      _append_log msg_empty_cmd "log" ;;;
      set_running_item None
  | Ok (prog :: args) =>
      emit (console_text (newline ++ "$ " ++ prog ++ " " ++ join " " args ++ newline)) ;;;
      _append_log ("Executando: " ++ fmt (item !! "processo")
                     ++ " (" ++ fmt (item !! "ferramenta") ++ ")") "log" ;;;
      set_process (mkProcess Starting prog args) ;;;
      emit (status_text ("Executando: " ++ fmt (item !! "processo")))
  end.

Definition is_not_running (p : QProcess) : bool :=
  match state p with NotRunning => true | _ => false end.

Definition _drain_queue_if_idle (h : Host) : M OrchestratorController unit :=
  p <-- gets _process ;;
  if negb (is_not_running p) then ret tt
  else
    q <-- gets queue ;;
    if empty q then
      _emit_queue_changed ;;;
      emit (status_text "Fila vazia")
    else
      got <-- try_except
                (item <-- on_scheduler (on_queue get) ;; ret (Some item))
                (fun _ => ret None) ;;
      match got with
      | None => ret tt
      | Some item =>
          _emit_queue_changed ;;;
          set_running_item (Some item) ;;;
          emit (running_item_changed (Some item)) ;;;
          _start_item h item
      end.

Definition msg_outside_window : string :=
  "Fora do hor" ++ chr 225 ++ "rio (07-18): scheduler em espera".

(** [_on_scheduler_tick]; [hour] is the hour read from the clock by the
    gate and [now_parts] the time parts read by [tick_once]. *)
Definition _on_scheduler_tick (h : Host) (hour : Z) (now_parts : NowParts)
    : M OrchestratorController unit :=
  if negb ((7 <=? hour) && (hour <? 18)) then
    emit (status_text msg_outside_window)
  else
    try_except
      (on_scheduler (tick_once now_parts))
      (fun exc => _append_log ("Erro no scheduler: " ++ exn_str exc) "log") ;;;
    _emit_queue_changed ;;;
    _drain_queue_if_idle h.

Definition start_scheduler (h : Host) (hour : Z) (now_parts : NowParts)
    : M OrchestratorController unit :=
  running <-- gets _running_scheduler ;;
  if running : bool then ret tt
  else
    set_scheduler_flags true true ;;;
    emit (scheduler_state_changed true) ;;;
    _emit_queue_changed ;;;
    emit (status_text "Scheduler: ligado") ;;;
    _on_scheduler_tick h hour now_parts.

Definition stop_scheduler : M OrchestratorController unit :=
  running <-- gets _running_scheduler ;;
  if negb running then ret tt
  else
    set_scheduler_flags false false ;;;
    emit (scheduler_state_changed false) ;;;
    _emit_queue_changed ;;;
    emit (status_text "Scheduler: desligado").


End Controller.

(* ===================================================================== *)
(** ** Vocabulary of the properties and sample data *)
(* ===================================================================== *)

Module Vocabulary.
Import PyStr Eff Models Util DB Orchestrator Executor Controller.

(** A string without blank characters. *)
Definition no_space (s : string) : bool :=
  all_chars (fun c => negb (isspace c)) s.

(** A purely numeric string: non-empty, decimal digits only. *)
Definition numeric (s : string) : bool :=
  negb (is_empty s) && all_chars is_decimal s.

(** A digit string short enough for [int]: at most [int_max_str_digits]
    characters. *)
Definition within_int_limit (s : string) : bool :=
  Z.of_nat (String.length s) <=? int_max_str_digits.

(** The integer the digits of a purely numeric string denote, whatever
    the length of the string. *)
Definition value_of (s : string) : option Z := int_acc 0 s.

(** [n] zeros. *)
Fixpoint zeros (n : nat) : string :=
  match n with
  | O => EmptyString
  | S n' => String "0" (zeros n')
  end.

(** The three separators of multi-value schedule fields. *)
Definition is_delimiter (c : ascii) : bool :=
  Ascii.eqb c ";" || Ascii.eqb c "|" || Ascii.eqb c ",".

Definition has_delimiter (s : string) : bool :=
  negb (all_chars (fun c => negb (is_delimiter c)) s).

(** The keys of the seven schedule fields of a row. *)
Definition schedule_fields : list string :=
  ["ano"; "meses_do_ano"; "semanas_do_mes"; "dias_da_semana"; "dia"; "hora"; "minuto"].

(** The row of the test-suite: every schedule field holds the wildcard. *)
Definition all_todos_row : gmap string cell :=
  <["Nome_Processo" := CText "MeuProcesso"]>
  (<["Ferramenta" := CText "Uipath"]>
  (<["Caminho" := CText "C:\UiPath\robot.exe"]>
  (<["ano" := CText "Todos"]>
  (<["meses_do_ano" := CText "Todos"]>
  (<["semanas_do_mes" := CText "Todos"]>
  (<["dias_da_semana" := CText "Todos"]>
  (<["dia" := CText "Todos"]>
  (<["hora" := CText "Todos"]>
  (<["minuto" := CText "Todos"]> ∅))))))))).

Definition sample_now : NowParts :=
  mkNowParts "2025" "December" "4" "Friday" "26" "07" "30".

(** *** Dispatch queue: interleaved pushes and pops *)
Inductive queue_op :=
| Push (item : Item)
| Pop.

(** Runs the operations in order; the outcome of every pop is recorded. *)
Fixpoint run_ops (ops : list queue_op) (q : InMemoryQueue)
    : list (result Item) * InMemoryQueue :=
  match ops with
  | [] => ([], q)
  | Push item :: rest => run_ops rest (snd (put item q))
  | Pop :: rest =>
      let '(out, q') := get q in
      let '(outs, q'') := run_ops rest q' in
      (out :: outs, q'')
  end.

Fixpoint pushed (ops : list queue_op) : list Item :=
  match ops with
  | [] => []
  | Push item :: rest => item :: pushed rest
  | Pop :: rest => pushed rest
  end.

Fixpoint popped (outs : list (result Item)) : list Item :=
  match outs with
  | [] => []
  | Ok item :: rest => item :: popped rest
  | Raise _ :: rest => popped rest
  end.

(** *** Duplicate guard *)

(** The guard already holds the key of [item] for the minute of [now]. *)
Definition already_seen (g : DuplicateGuard) (item : Item) (now : NowParts) : bool :=
  bool_decide (_last_minute_key g = Some (minute_key now))
  && bool_decide (job_key item ∈ _seen g).

(** The guard is in the minute [mk] and has recorded [key] there. *)
Definition holds (g : DuplicateGuard) (mk key : string) : Prop :=
  _last_minute_key g = Some mk /\ key ∈ _seen g.

(** A series of [allow] calls, results dropped. *)
Fixpoint run_allows (calls : list (Item * NowParts)) (g : DuplicateGuard)
    : DuplicateGuard :=
  match calls with
  | [] => g
  | (item, now) :: rest => run_allows rest (snd (allow item now g))
  end.

(** The items of [due] the guard lets through, in order, when they are
    offered one after the other at the time [now]. *)
Fixpoint accepted (now : NowParts) (due : list Item) (g : DuplicateGuard)
    : list Item :=
  match due with
  | [] => []
  | item :: rest =>
      match allow item now g with
      | (Ok true, g') => item :: accepted now rest g'
      | (_, g') => accepted now rest g'
      end
  end.

(** The due list of a tick: what [poll_due_processes] computes from the
    enabled rows. *)
Definition due_now (now : NowParts) (d : OrchestratorDB) : list Item :=
  due_loop now (List.filter enabled (processes d)) [].

(** The controller with another scheduler state. *)
Definition with_scheduler (c : OrchestratorController) (s : DBBackedScheduler)
    : OrchestratorController :=
  mkController s (_timer_active c) (_process c)
    (_running_scheduler c) (_running_item c) (emitted c).

(** Case analysis on the 256 characters. *)
Ltac each_char c := destruct c as [[] [] [] [] [] [] [] []].

(** *** Sample data *)
Definition mk_item (processo ferramenta caminho : string) : Item :=
  <["processo" := processo]>
  (<["ferramenta" := ferramenta]>
  (<["caminho" := caminho]> ∅)).

(** A machine without any file, and one whose only file is [file]. *)
Definition host_without_files : Host :=
  mkHost (fun _ => false) (fun _ => false) shlex_split_nonposix "python.exe".

Definition host_with_file (file : string) : Host :=
  mkHost (String.eqb file) (String.eqb file) shlex_split_nonposix "python.exe".

Definition sample_item : Item := mk_item "Proc" "Python" "script.py".

Definition other_item : Item := mk_item "Other" "Python" "other.py".

Definition readme : string := "C:\dir\readme.txt".

Definition now_0705 : NowParts :=
  mkNowParts "2025" "December" "4" "Friday" "26" "07" "05".

Definition now_0706 : NowParts :=
  mkNowParts "2025" "December" "4" "Friday" "26" "07" "06".

(** An enabled process that is due at every minute, and its queue item. *)
Definition item_of (name : string) : Item :=
  mk_item name "other" (name ++ ".exe").

Definition always_due (name : string) : ProcessConfig :=
  mkProcessConfig None name "other" (name ++ ".exe")
    "Todos" "Todos" "Todos" "Todos" "Todos" "Todos" "Todos" true.

(** Three due processes; the listing and the first log row are written,
    the second log row is refused. *)
Definition db_failing_second_log : OrchestratorDB :=
  mkDB [always_due "a"; always_due "b"; always_due "c"] []
    [None; None; Some "disk full"].

End Vocabulary.

(* ===================================================================== *)
(** ** util.py: the time parts of the clock *)
(* ===================================================================== *)

Module Clock.
Import PyStr Eff Util.

Definition msg_invalid_int (s : string) : string :=
  "invalid literal for int() with base 10: '" ++ s ++ "'".

(** [semana_do_mes = (dia_atual - 1) // 7 + 1] *)
Definition semana_do_mes (dia_atual : Z) : Z := (dia_atual - 1) / 7 + 1.

(** [get_now_parts].  [strftime] gives the rendering of a format at the
    moment of the call; the state is the flag [_LOCALE_INITIALIZED], set
    by the first call. *)
Definition get_now_parts (strftime : string -> string) : M bool NowParts :=
  modify (fun _LOCALE_INITIALIZED => true) ;;;
  match int (strftime "%d") with
  | None => raise (ValueError (msg_invalid_int (strftime "%d")))
  | Some dia_atual =>
      ret (mkNowParts
             (strftime "%Y")
             (strftime "%B")
             (of_Z (semana_do_mes dia_atual))
             (strftime "%A")
             (strftime "%d")
             (strftime "%H")
             (strftime "%M"))
  end.

End Clock.

(* ===================================================================== *)
(** ** orchestrator.py: item_as_dict *)
(* ===================================================================== *)

Module ItemDict.

(** An item whose values may be [None]. *)
Definition item_as_dict (item : gmap string (option string))
    : gmap string (option string) :=
  (fun v : option string =>
     match v with None => Some EmptyString | Some x => Some x end) <$> item.

End ItemDict.

(* ===================================================================== *)
(** ** executor.py: run_item *)
(* ===================================================================== *)

Module Runner.
Import PyStr Eff Orchestrator Executor.

(** What [run_item] does to the outside: it runs a command through
    [subprocess.run] (with or without capture of the output) and it
    sleeps. *)
Inductive effect :=
| Run (cmd : list string) (capture_output : bool)
| Sleep (seconds : Z).

(** The ways [run_item] ends: normally, with the exception of the builder,
    with [CalledProcessError] for an exit code other than zero, or with
    the error of a program that could not be started. *)
Inductive outcome :=
| Done
| BuildError (e : exn)
| CalledProcessError (returncode : Z) (cmd : list string)
| LaunchError (msg : string).

(** [subprocess.run(cmd, check=True, ...)]: [launch] gives the exit code
    of the child, or the message of the error raised when it cannot be
    started. *)
Definition subprocess_run (launch : list string -> Z + string)
    (cmd : list string) (capture_output : bool) : outcome * list effect :=
  match launch cmd with
  | inr msg => (LaunchError msg, [Run cmd capture_output])
  | inl returncode =>
      if returncode =? 0 then (Done, [Run cmd capture_output])
      else (CalledProcessError returncode cmd, [Run cmd capture_output])
  end.

Definition run_item (h : Host) (launch : list string -> Z + string)
    (item : Item) : outcome * list effect :=
  let tool := field item "ferramenta" in
  match build_subprocess_command h item with
  | Raise e => (BuildError e, [])
  | Ok cmd =>
      if String.eqb (lower tool) "uipath" then
        match subprocess_run launch cmd true with
        | (Done, effects) => (Done, (effects ++ [Sleep 20])%list)
        | failed => failed
        end
      else subprocess_run launch cmd false
  end.

End Runner.

(* ===================================================================== *)
(** ** gui_controller.py: the process slots and the cancel button *)
(* ===================================================================== *)

Module Dispatch.
Import PyStr Eff Util DB Orchestrator Executor Controller.

(** The controller together with the number of [kill()] calls made on its
    process so far. *)
Record Desk := mkDesk {
  ctrl : OrchestratorController;
  kill_calls : nat
}.

Definition on_ctrl {A} (m : M OrchestratorController A) : M Desk A :=
  fun d =>
    let '(r, c) := m (ctrl d) in (r, mkDesk c (kill_calls d)).

Definition kill : M Desk unit :=
  modify (fun d => mkDesk (ctrl d) (S (kill_calls d))).

Definition is_process_running (c : OrchestratorController) : bool :=
  negb (is_not_running (_process c)).

Definition can_cancel_current_process (c : OrchestratorController) : bool :=
  if is_not_running (_process c) then false
  else
    match _running_item c with
    | None => false
    | Some item =>
        if bool_decide (item = ∅) then false
        else
          let tool := lower (field item "ferramenta") in
          if String.eqb tool "python" then true
          else
            let path := field item "caminho" in
            let ext := lower (snd (splitext path)) in
            one_of ext [".py"; ".pyw"]
    end.

Definition msg_cancel_refused : string :=
  "Cancelamento dispon" ++ chr 237 ++ "vel apenas para execu" ++ chr 231
    ++ chr 245 ++ "es Python.".

Definition msg_cancelling : string :=
  "Cancelando execu" ++ chr 231 ++ chr 227 ++ "o Python...".

Definition stop_current_process : M Desk unit :=
  c <-- gets ctrl ;;
  if is_not_running (_process c) then ret tt
  else if negb (can_cancel_current_process c) then
    on_ctrl (_append_log msg_cancel_refused "log")
  else
    on_ctrl (_append_log msg_cancelling "log") ;;;
    kill.

Definition _on_started : M OrchestratorController unit :=
  emit (process_running_changed true).

Definition _on_error : M OrchestratorController unit :=
  _append_log "Falha ao iniciar o processo (QProcess)" "log" ;;;
  emit (process_running_changed false) ;;;
  set_running_item None ;;;
  emit (running_item_changed None).



End Dispatch.

(* ===================================================================== *)
(** ** Further vocabulary *)
(* ===================================================================== *)

Module Terms.
Import PyStr Eff Models Util DB Orchestrator Executor Controller Vocabulary Dispatch.

(** A token as [_split_values] returns them: not empty, trimmed, without
    separator. *)
Definition clean_token (t : string) : bool :=
  negb (is_empty t) && String.eqb (strip t) t && negb (has_delimiter t).

(** Cutting a string at every character that satisfies [p]. *)
Fixpoint split_by (p : ascii -> bool) (s : string) : list string :=
  match s with
  | EmptyString => [EmptyString]
  | String c r =>
      if p c then EmptyString :: split_by p r
      else match split_by p r with
           | h :: t => String c h :: t
           | [] => [String c EmptyString]
           end
  end.

(** The text made of [first] and of the tokens of [rest], each preceded
    by its separator character. *)
Fixpoint weave (first : string) (rest : list (ascii * string)) : string :=
  match rest with
  | [] => first
  | (d, t) :: more => first ++ String d (weave t more)
  end.



(** The number written by the digits [d] after the digits that make
    [acc]. *)
Fixpoint uint_val (acc : Z) (d : Decimal.uint) : Z :=
  match d with
  | Decimal.Nil => acc
  | Decimal.D0 l => uint_val (10 * acc + 0) l
  | Decimal.D1 l => uint_val (10 * acc + 1) l
  | Decimal.D2 l => uint_val (10 * acc + 2) l
  | Decimal.D3 l => uint_val (10 * acc + 3) l
  | Decimal.D4 l => uint_val (10 * acc + 4) l
  | Decimal.D5 l => uint_val (10 * acc + 5) l
  | Decimal.D6 l => uint_val (10 * acc + 6) l
  | Decimal.D7 l => uint_val (10 * acc + 7) l
  | Decimal.D8 l => uint_val (10 * acc + 8) l
  | Decimal.D9 l => uint_val (10 * acc + 9) l
  end.

(** The launcher put in front of a script, by the lower-cased extension
    of the script. *)
Definition launcher_prefix (h : Host) (ext : string) : option (list string) :=
  if one_of ext [".py"; ".pyw"] then Some [sys_executable h]
  else if one_of ext [".bat"; ".cmd"] then Some ["cmd.exe"; "/c"]
  else if String.eqb ext ".ps1" then
    Some ["powershell"; "-NoProfile"; "-ExecutionPolicy"; "Bypass"; "-File"]
  else None.

(** The tokens [_split_command_windows] starts from when the text is not
    an existing path: those of the tokenizer, or the text itself when the
    tokenizer fails. *)
Definition raw_tokens (h : Host) (raw : string) : list string :=
  match shlex_split h raw with Some ts => ts | None => [raw] end.

(** A schedule row from its seven schedule cells. *)
Definition schedule_row (ano meses semanas dias dia hora minuto : cell)
    : gmap string cell :=
  <["ano" := ano]>
  (<["meses_do_ano" := meses]>
  (<["semanas_do_mes" := semanas]>
  (<["dias_da_semana" := dias]>
  (<["dia" := dia]>
  (<["hora" := hora]>
  (<["minuto" := minuto]> ∅)))))).

(** The item of a process row. *)
Definition item_of_process (proc : ProcessConfig) : Item :=
  to_process_item (process_to_schedule_row proc).

Definition is_due (now : NowParts) (proc : ProcessConfig) : bool :=
  should_enqueue (process_to_schedule_row proc) now.

(** The keys the guard holds for the minute of [now]: those it has seen
    when it is in that minute, none when it is in another one. *)
Definition seen_at (g : DuplicateGuard) (now : NowParts) : gset string :=
  if bool_decide (Some (minute_key now) = _last_minute_key g) then _seen g else ∅.

(** The log row [tick_once] writes for an item it pushes. *)
Definition enqueue_entry (item : Item) : LogEntry :=
  mkLogEntry None "log"
    ("Enfileirado: " ++ fmt (item !! "processo")
       ++ " (" ++ fmt (item !! "ferramenta") ++ ")").

(** The calls of [allow] a tick makes for its due items. *)
Definition calls_at (now : NowParts) (due : list Item) : list (Item * NowParts) :=
  map (fun item => (item, now)) due.

(** No coming operation of the database is refused. *)
Definition no_fault (tape : list (option string)) : Prop :=
  Forall (fun o => o = None) tape.

(** The controller with another queue. *)
Definition scheduler_with_queue (s : DBBackedScheduler) (q : InMemoryQueue)
    : DBBackedScheduler :=
  mkScheduler (db s) q (poll_seconds s) (log_to_db s) (_guard s) (logging s).



(** A controller with the given queue, process state and running item. *)
Definition controller_with (d : OrchestratorDB) (items : list Item)
    (st : ProcessState) (running : option Item) : OrchestratorController :=
  mkController (new_scheduler d (mkQueue items) 60 true) false
    (mkProcess st EmptyString []) false running [].

End Terms.

(* ===================================================================== *)
(** * Properties *)
(* ===================================================================== *)

(** ** Facts about the string primitives *)

Module PyStrFacts.
Import PyStr Vocabulary.

Lemma isspace_lower_char c : isspace (lower_char c) = isspace c.
Proof. each_char c; vm_compute; reflexivity. Qed.

Lemma decimal_not_space c : is_decimal c = true -> isspace c = false.
Proof. each_char c; vm_compute; congruence. Qed.

Lemma decimal_isdigit c : is_decimal c = true -> isdigit_char c = true.
Proof. unfold isdigit_char. intros ->. reflexivity. Qed.

Lemma decimal_lower c : is_decimal c = true -> lower_char c = c.
Proof. each_char c; vm_compute; congruence. Qed.

Lemma is_empty_true s : is_empty s = true <-> s = EmptyString.
Proof. destruct s; simpl; split; congruence. Qed.

Lemma is_empty_false s : is_empty s = false <-> s <> EmptyString.
Proof. destruct s; simpl; split; congruence. Qed.

(** Strings without blanks are left alone by [strip]. *)
Lemma lstrip_no_space s : no_space s = true -> lstrip s = s.
Proof.
  unfold no_space. destruct s as [|c r]; simpl; [reflexivity|].
  intros H. apply andb_true_iff in H as [Hc _].
  destruct (isspace c); [discriminate | reflexivity].
Qed.

Lemma rstrip_no_space s : no_space s = true -> rstrip s = s.
Proof.
  unfold no_space. induction s as [|c r IH]; simpl; [reflexivity|].
  intros H. apply andb_true_iff in H as [Hc Hr].
  rewrite (IH Hr). destruct (isspace c); [discriminate|].
  rewrite andb_false_r. reflexivity.
Qed.

Lemma strip_no_space s : no_space s = true -> strip s = s.
Proof.
  intros H. unfold strip. rewrite (lstrip_no_space _ H).
  apply rstrip_no_space, H.
Qed.

Lemma no_space_lower s : no_space (lower s) = no_space s.
Proof.
  unfold no_space. induction s as [|c r IH]; simpl; [reflexivity|].
  rewrite isspace_lower_char, IH. reflexivity.
Qed.

Lemma all_chars_impl (p q : ascii -> bool) s :
  (forall c, p c = true -> q c = true) ->
  all_chars p s = true -> all_chars q s = true.
Proof.
  intros Hpq. induction s as [|c r IH]; simpl; [reflexivity|].
  intros H. apply andb_true_iff in H as [Hc Hr].
  rewrite (Hpq _ Hc), (IH Hr). reflexivity.
Qed.

Lemma decimal_no_space s : all_chars is_decimal s = true -> no_space s = true.
Proof.
  apply all_chars_impl. intros c Hc. rewrite (decimal_not_space _ Hc). reflexivity.
Qed.

Lemma decimal_lower_string s : all_chars is_decimal s = true -> lower s = s.
Proof.
  induction s as [|c r IH]; simpl; [reflexivity|].
  intros H. apply andb_true_iff in H as [Hc Hr].
  rewrite (decimal_lower _ Hc), (IH Hr). reflexivity.
Qed.

(** The structure of [rstrip]: it keeps the first character of a string
    that does not start with a blank, and it is idempotent. *)
Lemma rstrip_idem s : rstrip (rstrip s) = rstrip s.
Proof.
  induction s as [|c r IH]; simpl; [reflexivity|].
  destruct (is_empty (rstrip r)) eqn:He; simpl.
  - destruct (isspace c) eqn:Hc; simpl; [reflexivity|].
    apply is_empty_true in He. rewrite He. simpl. rewrite Hc. reflexivity.
  - rewrite IH, He. reflexivity.
Qed.

Lemma lstrip_head s :
  lstrip s = EmptyString \/
  exists c r, lstrip s = String c r /\ isspace c = false.
Proof.
  induction s as [|c r IH]; simpl; [left; reflexivity|].
  destruct (isspace c) eqn:Hc; [exact IH|].
  right. exists c, r. split; [reflexivity | exact Hc].
Qed.

Lemma lstrip_rstrip_head c r :
  isspace c = false -> lstrip (rstrip (String c r)) = rstrip (String c r).
Proof.
  intros Hc. simpl. rewrite Hc, andb_false_r. simpl. rewrite Hc. reflexivity.
Qed.

Lemma strip_idem s : strip (strip s) = strip s.
Proof.
  unfold strip. destruct (lstrip_head s) as [-> | (c & r & -> & Hc)].
  - reflexivity.
  - rewrite (lstrip_rstrip_head _ _ Hc). apply rstrip_idem.
Qed.

End PyStrFacts.

(** ** The schedule matcher *)

Module UtilFacts.
Import PyStr PyStrFacts Util Vocabulary.

Lemma normalize_text s : _normalize_cell (CText s) = strip s.
Proof. reflexivity. Qed.

Lemma token_matches_strip t cur :
  token_matches (strip t) cur = token_matches t cur.
Proof. unfold token_matches. rewrite strip_idem. reflexivity. Qed.


Lemma token_matches_empty_now t : token_matches t EmptyString = false.
Proof. unfold token_matches. simpl. rewrite orb_true_r. reflexivity. Qed.



(** [_matches] on a field that is neither empty nor the wildcard. *)
Lemma matches_ordinary v cur :
  is_empty (_normalize_cell v) = false ->
  String.eqb (lower (_normalize_cell v)) "todos" = false ->
  _matches v cur =
    match _split_values (_normalize_cell v) with
    | [] => token_matches (_normalize_cell v) cur
    | _ :: _ => existsb (fun t => token_matches t cur) (_split_values (_normalize_cell v))
    end.
Proof. intros H1 H2. unfold _matches. rewrite H1, H2. reflexivity. Qed.

Lemma lower_todos_no_space s : lower s = "todos" -> no_space s = true.
Proof. intros H. rewrite <- no_space_lower, H. reflexivity. Qed.

Lemma matches_wildcard s cur : lower s = "todos" -> _matches (CText s) cur = true.
Proof.
  intros H. unfold _matches. rewrite normalize_text.
  rewrite (strip_no_space _ (lower_todos_no_space _ H)), H.
  destruct s; [discriminate | reflexivity].
Qed.

(** C5. A row whose seven schedule fields all hold the wildcard token, in
    any letter case, is due at every time snapshot: [should_enqueue]
    returns true whatever the [NowParts]. *)
Theorem C5_all_wildcards_always_due (row : gmap string cell) (now : NowParts) :
  (forall key, In key schedule_fields ->
     exists s, row !! key = Some (CText s) /\ lower s = "todos") ->
  should_enqueue row now = true.
Proof.
  intros H. unfold should_enqueue, row_get.
  repeat match goal with
  | |- context [row !! ?k] =>
      let s := fresh "s" in let Hk := fresh "Hk" in let Hs := fresh "Hs" in
      destruct (H k) as (s & Hk & Hs);
      [unfold schedule_fields; simpl; tauto |];
      rewrite Hk, (matches_wildcard _ _ Hs)
  end.
  reflexivity.
Qed.

Lemma C5_witness :
  should_enqueue all_todos_row sample_now = true.
Proof.
  apply (C5_all_wildcards_always_due all_todos_row sample_now).
  intros key Hk. unfold schedule_fields in Hk. simpl in Hk.
  destruct Hk as [<-|[<-|[<-|[<-|[<-|[<-|[<-|[]]]]]]]];
    exists "Todos"; split; reflexivity.
Defined.

(** Purely numeric strings. *)
Lemma numeric_parts s :
  numeric s = true -> is_empty s = false /\ all_chars is_decimal s = true.
Proof.
  unfold numeric. intros H. apply andb_true_iff in H as [H1 H2].
  apply negb_true_iff in H1. split; assumption.
Qed.

Lemma int_acc_decimal s : forall acc,
  all_chars is_decimal s = true -> exists n, int_acc acc s = Some n.
Proof.
  induction s as [|c r IH]; simpl; intros acc H.
  - exists acc. reflexivity.
  - apply andb_true_iff in H as [Hc Hr]. rewrite Hc. apply IH, Hr.
Qed.

(** [int] converts the digit strings within the limit, and only them. *)
Lemma int_within_limit s :
  is_empty s = false -> within_int_limit s = true -> int s = int_acc 0 s.
Proof.
  unfold within_int_limit, int. intros He Hl. rewrite He.
  apply Z.leb_le in Hl.
  destruct (Z.ltb_spec int_max_str_digits (Z.of_nat (String.length s)));
    [lia | reflexivity].
Qed.

Lemma int_over_limit s : within_int_limit s = false -> int s = None.
Proof.
  unfold within_int_limit, int. intros Hl. apply Z.leb_gt in Hl.
  destruct (is_empty s); [reflexivity|].
  destruct (Z.ltb_spec int_max_str_digits (Z.of_nat (String.length s)));
    [reflexivity | lia].
Qed.

Lemma numeric_int s :
  numeric s = true -> within_int_limit s = true ->
  exists n, int s = Some n /\ value_of s = Some n.
Proof.
  intros H Hl. destruct (numeric_parts _ H) as [He Hd].
  rewrite (int_within_limit _ He Hl). unfold value_of.
  destruct (int_acc_decimal s 0 Hd) as [n Hn]. exists n. auto.
Qed.

Lemma numeric_strip s : numeric s = true -> strip s = s.
Proof.
  intros H. destruct (numeric_parts _ H) as [_ Hd].
  apply strip_no_space, decimal_no_space, Hd.
Qed.

Lemma numeric_isdigit s : numeric s = true -> isdigit s = true.
Proof.
  intros H. destruct (numeric_parts _ H) as [He Hd].
  unfold isdigit. rewrite He. simpl.
  apply (all_chars_impl is_decimal); [apply decimal_isdigit | exact Hd].
Qed.

Lemma split_without_sep sep s :
  all_chars (fun c => negb (Ascii.eqb c sep)) s = true -> split sep s = [s].
Proof.
  induction s as [|c r IH]; simpl; [reflexivity|].
  intros H. apply andb_true_iff in H as [Hc Hr].
  apply negb_true_iff in Hc. rewrite Hc, (IH Hr). reflexivity.
Qed.

Lemma split_pieces_single s :
  has_delimiter s = false -> split_pieces s = [s].
Proof.
  unfold has_delimiter. intros H. apply negb_false_iff in H.
  assert (Hsep : forall sep, is_delimiter sep = true ->
            all_chars (fun c => negb (Ascii.eqb c sep)) s = true).
  { intros sep Hsep. revert H. apply all_chars_impl. intros c Hc.
    destruct (Ascii.eqb_spec c sep) as [->|]; [|reflexivity].
    rewrite Hsep in Hc. discriminate. }
  unfold split_pieces, split_all. simpl.
  rewrite (split_without_sep ";" s) by (apply Hsep; reflexivity). simpl.
  rewrite (split_without_sep "|" s) by (apply Hsep; reflexivity). simpl.
  rewrite (split_without_sep "," s) by (apply Hsep; reflexivity). reflexivity.
Qed.

Lemma decimal_not_delimiter c : is_decimal c = true -> is_delimiter c = false.
Proof. each_char c; vm_compute; congruence. Qed.

Lemma numeric_no_delimiter s : numeric s = true -> has_delimiter s = false.
Proof.
  intros H. destruct (numeric_parts _ H) as [_ Hd].
  unfold has_delimiter. apply negb_false_iff. revert Hd.
  apply all_chars_impl. intros c Hc. rewrite (decimal_not_delimiter _ Hc). reflexivity.
Qed.

Lemma numeric_not_wildcard s : numeric s = true -> String.eqb (lower s) "todos" = false.
Proof.
  intros H. destruct (numeric_parts _ H) as [He Hd].
  rewrite (decimal_lower_string _ Hd).
  destruct s as [|c r]; [discriminate|]. simpl in Hd.
  apply andb_true_iff in Hd as [Hc _]. simpl.
  destruct (Ascii.eqb_spec c "t") as [->|]; [discriminate | reflexivity].
Qed.

Lemma token_matches_numeric t cur a b :
  numeric t = true -> numeric cur = true ->
  int t = Some a -> int cur = Some b ->
  token_matches t cur = (a =? b).
Proof.
  intros Ht Hc Ha Hb. unfold token_matches.
  rewrite (numeric_strip _ Ht), (numeric_strip _ Hc).
  destruct (numeric_parts _ Ht) as [-> _]. destruct (numeric_parts _ Hc) as [-> _].
  rewrite (numeric_isdigit _ Ht), (numeric_isdigit _ Hc), Ha, Hb. reflexivity.
Qed.

Lemma matches_single_token s cur :
  strip s = s -> is_empty s = false -> has_delimiter s = false ->
  String.eqb (lower s) "todos" = false ->
  _matches (CText s) cur = token_matches s cur.
Proof.
  intros Hs He Hd Hw. unfold _matches. rewrite normalize_text, Hs, He, Hw.
  unfold _split_values. rewrite He, (split_pieces_single _ Hd). simpl.
  rewrite Hs, He. simpl. rewrite Hs. apply orb_false_r.
Qed.

Lemma token_matches_over_limit t cur :
  numeric t = true -> numeric cur = true ->
  within_int_limit t = false \/ within_int_limit cur = false ->
  token_matches t cur = contains cur t.
Proof.
  intros Ht Hc Hl. unfold token_matches.
  rewrite (numeric_strip _ Ht), (numeric_strip _ Hc).
  destruct (numeric_parts _ Ht) as [-> _]. destruct (numeric_parts _ Hc) as [-> _].
  rewrite (numeric_isdigit _ Ht), (numeric_isdigit _ Hc). simpl.
  destruct Hl as [Hl|Hl]; rewrite (int_over_limit _ Hl);
    [reflexivity | destruct (int t); reflexivity].
Qed.

(** C6. For purely numeric strings of at most 4300 digits each, the
    token matches the snapshot value exactly when the integers they
    denote are equal, whether the token is compared on its own or as the
    whole schedule field; leading zeros do not matter, and [int] returns
    these integers.  When one of the
    two strings is longer, [int] refuses it and the comparison is the one
    by substring: the token matches when it contains the snapshot
    value. *)
Theorem C6_numeric_tokens_compare_as_integers (token current : string) :
  numeric token = true -> numeric current = true ->
  (within_int_limit token = true -> within_int_limit current = true ->
   exists a b : Z,
     int token = Some a /\ int current = Some b /\
     value_of token = Some a /\ value_of current = Some b /\
     token_matches token current = (a =? b) /\
     _matches (CText token) current = (a =? b))
  /\ (within_int_limit token = false \/ within_int_limit current = false ->
      token_matches token current = contains current token /\
      _matches (CText token) current = contains current token).
Proof.
  intros Ht Hc.
  assert (Hm : _matches (CText token) current = token_matches token current).
  { apply matches_single_token.
    - apply numeric_strip, Ht.
    - apply (numeric_parts _ Ht).
    - apply numeric_no_delimiter, Ht.
    - apply numeric_not_wildcard, Ht. }
  split.
  - intros Lt Lc.
    destruct (numeric_int _ Ht Lt) as (a & Ha & Va).
    destruct (numeric_int _ Hc Lc) as (b & Hb & Vb).
    exists a, b. split; [exact Ha|]. split; [exact Hb|].
    split; [exact Va|]. split; [exact Vb|].
    pose proof (token_matches_numeric _ _ _ _ Ht Hc Ha Hb) as Htm.
    rewrite Hm. split; exact Htm.
  - intros Hl. rewrite Hm.
    pose proof (token_matches_over_limit _ _ Ht Hc Hl) as Htm. split; exact Htm.
Qed.

Lemma C6_witness :
  token_matches "7" "07" = true /\ token_matches "07" "07" = true /\
  _matches (CText "7") "07" = true /\ _matches (CText "07") "07" = true.
Proof.
  destruct (C6_numeric_tokens_compare_as_integers "7" "07" eq_refl eq_refl)
    as (H & _).
  destruct (H eq_refl eq_refl) as (a & b & Ha & Hb & _ & _ & H1 & H2).
  destruct (C6_numeric_tokens_compare_as_integers "07" "07" eq_refl eq_refl)
    as (H' & _).
  destruct (H' eq_refl eq_refl) as (a' & b' & Ha' & Hb' & _ & _ & H1' & H2').
  vm_compute in Ha, Hb, Ha', Hb'.
  injection Ha as <-. injection Hb as <-. injection Ha' as <-. injection Hb' as <-.
  repeat split; assumption.
Defined.

(** C6, the claim as it was stated fails in both directions beyond the
    limit of [int].  The token [7] and the snapshot value made of 4300
    zeros and a [7] are purely numeric and denote the same integer, and
    yet the token does not match.  The token made of a [1] and 4300 zeros
    and the snapshot value [00] denote different integers, and yet the
    token matches, because it contains the value. *)
Lemma C6_counterexample :
  (numeric "7" = true /\ numeric (zeros 4300 ++ "7") = true
   /\ value_of "7" = Some 7 /\ value_of (zeros 4300 ++ "7") = Some 7
   /\ token_matches "7" (zeros 4300 ++ "7") = false
   /\ _matches (CText "7") (zeros 4300 ++ "7") = false)
  /\ (numeric ("1" ++ zeros 4300) = true /\ numeric "00" = true
      /\ value_of ("1" ++ zeros 4300) = Some (10 ^ 4300) /\ value_of "00" = Some 0
      /\ token_matches ("1" ++ zeros 4300) "00" = true
      /\ _matches (CText ("1" ++ zeros 4300)) "00" = true).
Proof. repeat split; vm_compute; reflexivity. Qed.

Lemma split_values_nonempty raw :
  _split_values raw <> [] -> is_empty raw = false.
Proof.
  unfold _split_values. destruct (is_empty raw); [congruence | reflexivity].
Qed.




Lemma all_chars_lstrip p s : all_chars p s = true -> all_chars p (lstrip s) = true.
Proof.
  induction s as [|c r IH]; simpl; [reflexivity|].
  intros H. destruct (isspace c); [|exact H].
  apply andb_true_iff in H as [_ Hr]. apply IH, Hr.
Qed.

Lemma all_chars_rstrip p s : all_chars p s = true -> all_chars p (rstrip s) = true.
Proof.
  induction s as [|c r IH]; simpl; [reflexivity|].
  intros H. apply andb_true_iff in H as [Hc Hr].
  destruct (is_empty (rstrip r) && isspace c); [reflexivity|].
  simpl. rewrite Hc, (IH Hr). reflexivity.
Qed.

Lemma all_chars_strip p s : all_chars p s = true -> all_chars p (strip s) = true.
Proof. intros H. apply all_chars_rstrip, all_chars_lstrip, H. Qed.









(** Letters that lower-case to the letters of the wildcard. *)
Lemma is_delimiter_lower_char c : is_delimiter (lower_char c) = is_delimiter c.
Proof. each_char c; vm_compute; reflexivity. Qed.

Lemma isdigit_lower_char c : isdigit_char (lower_char c) = isdigit_char c.
Proof. each_char c; vm_compute; reflexivity. Qed.

Lemma has_delimiter_lower s : has_delimiter (lower s) = has_delimiter s.
Proof.
  unfold has_delimiter. f_equal.
  induction s as [|c r IH]; simpl; [reflexivity|].
  rewrite is_delimiter_lower_char, IH. reflexivity.
Qed.

Lemma all_isdigit_lower s :
  all_chars isdigit_char (lower s) = all_chars isdigit_char s.
Proof.
  induction s as [|c r IH]; simpl; [reflexivity|].
  rewrite isdigit_lower_char, IH. reflexivity.
Qed.

Lemma contains_no_digit (d : ascii) (rest w : string) :
  isdigit_char d = true -> all_chars (fun c => negb (isdigit_char c)) w = true ->
  contains (String d rest) w = false.
Proof.
  intros Hd. induction w as [|c r IH]; simpl; [reflexivity|].
  intros H. apply andb_true_iff in H as [Hc Hr]. rewrite (IH Hr).
  destruct (Ascii.eqb_spec d c) as [->|]; [|reflexivity].
  rewrite Hd in Hc. discriminate.
Qed.

Lemma no_digit_lower s :
  all_chars (fun c => negb (isdigit_char c)) (lower s)
  = all_chars (fun c => negb (isdigit_char c)) s.
Proof.
  induction s as [|c r IH]; simpl; [reflexivity|].
  rewrite isdigit_lower_char, IH. reflexivity.
Qed.

Lemma wildcard_token_matches w cur :
  lower w = "todos" ->
  token_matches w cur = negb (is_empty (strip cur)) && contains (strip cur) w.
Proof.
  intros H. unfold token_matches.
  rewrite (strip_no_space _ (lower_todos_no_space _ H)).
  assert (Hd : isdigit w = false).
  { unfold isdigit. rewrite <- all_isdigit_lower, H. apply andb_false_r. }
  rewrite Hd. simpl.
  destruct w; [discriminate|]. simpl.
  destruct (is_empty (strip cur)); reflexivity.
Qed.

(** C10. When the wildcard token is one element of a delimiter-separated
    list, the whole field is not the wildcard: the field matches exactly
    when one of its tokens matches, the wildcard element is compared by
    substring containment like any other word, and it does not match every
    snapshot value: it does not match the year 2025, and the field matches
    no empty snapshot value. *)
Theorem C10_wildcard_inside_a_list_is_an_ordinary_token
    (v : cell) (w current : string) :
  has_delimiter (_normalize_cell v) = true ->
  In w (_split_values (_normalize_cell v)) ->
  lower w = "todos" ->
  _matches v current
    = existsb (fun token => token_matches token current)
        (_split_values (_normalize_cell v))
  /\ token_matches w current
      = negb (is_empty (strip current)) && contains (strip current) w
  /\ token_matches w "2025" = false
  /\ _matches v EmptyString = false.
Proof.
  intros Hd Hin Hw.
  assert (Hne : _split_values (_normalize_cell v) <> []).
  { intros E. rewrite E in Hin. destruct Hin. }
  pose proof (split_values_nonempty _ Hne) as He.
  assert (Hnw : String.eqb (lower (_normalize_cell v)) "todos" = false).
  { destruct (String.eqb_spec (lower (_normalize_cell v)) "todos") as [E|]; [|reflexivity].
    rewrite <- has_delimiter_lower, E in Hd. discriminate. }
  assert (Hm : forall cur, _matches v cur
            = existsb (fun token => token_matches token cur)
                (_split_values (_normalize_cell v))).
  { intros cur. rewrite (matches_ordinary _ _ He Hnw).
    destruct (_split_values (_normalize_cell v)); [congruence | reflexivity]. }
  split; [apply Hm|]. split; [apply wildcard_token_matches, Hw|]. split.
  - rewrite (wildcard_token_matches _ _ Hw). simpl.
    apply contains_no_digit; [reflexivity|].
    rewrite <- no_digit_lower, Hw. reflexivity.
  - rewrite Hm. apply not_true_is_false. intros E.
    apply existsb_exists in E as (t & _ & Ht).
    rewrite token_matches_empty_now in Ht. discriminate.
Qed.

Lemma C10_witness :
  _matches (CText "Todos,07") "2025" = false /\
  _matches (CText "Todos,07") "07" = true /\
  token_matches "Todos" "2025" = false /\
  token_matches "Todos" "odo" = true.
Proof.
  destruct (C10_wildcard_inside_a_list_is_an_ordinary_token
              (CText "Todos,07") "Todos" "2025") as (H1 & H2 & H3 & H4);
    [reflexivity | vm_compute; tauto | reflexivity |].
  destruct (C10_wildcard_inside_a_list_is_an_ordinary_token
              (CText "Todos,07") "Todos" "07") as (H1' & _);
    [reflexivity | vm_compute; tauto | reflexivity |].
  destruct (C10_wildcard_inside_a_list_is_an_ordinary_token
              (CText "Todos,07") "Todos" "odo") as (_ & H2' & _);
    [reflexivity | vm_compute; tauto | reflexivity |].
  split; [rewrite H1; reflexivity|]. split; [rewrite H1'; reflexivity|].
  split; [exact H3|]. rewrite H2'. reflexivity.
Defined.

End UtilFacts.

(** ** The command builder *)

Module ExecutorFacts.
Import PyStr PyStrFacts Eff Orchestrator Executor Vocabulary.

Lemma field_trimmed item key : strip (field item key) = field item key.
Proof. unfold field. apply strip_idem. Qed.

Lemma startswith_app x rest : startswith x (x ++ rest) = true.
Proof.
  induction x as [|c x IH]; simpl; [destruct rest; reflexivity|].
  rewrite Ascii.eqb_refl, IH. reflexivity.
Qed.

Lemma contains_app_r x before s : contains x s = true -> contains x (before ++ s) = true.
Proof.
  intros H. induction before as [|c before IH]; simpl; [exact H|].
  rewrite IH. apply orb_true_r.
Qed.

Lemma contains_here x rest : contains x (x ++ rest) = true.
Proof.
  destruct (x ++ rest) eqn:E; simpl; rewrite <- E, startswith_app; reflexivity.
Qed.

(** C1, as the builder has it.  The reserved tool is uipath.  For every
    item whose tool, once trimmed, equals it in any letter case and whose
    trimmed path is not empty, the builder returns the four tokens path,
    execute, --process-name, display name (trimmed values), on every host:
    the path is neither looked up nor cut into tokens. *)
Theorem C1_reserved_tool_command (h : Host) (item : Item) :
  lower (field item "ferramenta") = "uipath" ->
  field item "caminho" <> EmptyString ->
  build_subprocess_command h item
  = Ok [field item "caminho"; "execute"; "--process-name"; field item "processo"].
Proof.
  intros Htool Hpath. unfold build_subprocess_command.
  apply is_empty_false in Hpath. rewrite Hpath, Htool.
  destruct (field item "ferramenta"); [discriminate | reflexivity].
Qed.

Lemma C1_witness :
  build_subprocess_command host_without_files (mk_item "Proc" "UiPath" "robot.exe")
    = Ok ["robot.exe"; "execute"; "--process-name"; "Proc"]
  /\ build_subprocess_command (host_with_file "robot.exe")
       (mk_item " Proc " "Uipath" " robot.exe ")
    = Ok ["robot.exe"; "execute"; "--process-name"; "Proc"].
Proof.
  split.
  - apply (C1_reserved_tool_command host_without_files
             (mk_item "Proc" "UiPath" "robot.exe")); [reflexivity | discriminate].
  - apply (C1_reserved_tool_command (host_with_file "robot.exe")
             (mk_item " Proc " "Uipath" " robot.exe ")); [reflexivity | discriminate].
Defined.

(** The claim C1 as it was stated fails on its own example: the tool
    RoboT is not the reserved tool, so the item takes the ordinary route
    and the command is the path alone, whether the file exists or not.
    It also fails for an item of the reserved tool without a path, which
    is refused as incomplete. *)
Lemma C1_counterexample :
  build_subprocess_command host_without_files (mk_item "Proc" "RoboT" "robot.exe")
    = Ok ["robot.exe"]
  /\ build_subprocess_command (host_with_file "robot.exe")
       (mk_item "Proc" "RoboT" "robot.exe")
    = Ok ["robot.exe"]
  /\ build_subprocess_command host_without_files (mk_item "Proc" "RoboT" "robot.exe")
    <> Ok ["robot.exe"; "execute"; "--process-name"; "Proc"]
  /\ build_subprocess_command host_without_files (mk_item "Proc" "UiPath" EmptyString)
    = Raise (ValueError msg_missing).
Proof. vm_compute. repeat split. discriminate. Qed.

Lemma one_of_cons s x l : one_of s (x :: l) = String.eqb s x || one_of s l.
Proof. reflexivity. Qed.

Lemma split_command_of_existing_path h path :
  strip path = path -> path <> EmptyString -> path_exists h path = true ->
  _split_command_windows h path = [path].
Proof.
  intros Hs Hne Hex. unfold _split_command_windows.
  rewrite Hs. apply is_empty_false in Hne. rewrite Hne, Hex. reflexivity.
Qed.

(** C9, as the builder has it.  For every item with a tool that is not
    the reserved one, whose path resolves to an existing regular file with
    an extension outside the executable and script sets, the builder
    raises the error for targets that cannot be executed, and its message
    holds the resolved path and the extension. *)
Theorem C9_unexecutable_target_is_refused
    (h : Host) (item : Item) (entry : string) (rest : list string) :
  field item "ferramenta" <> EmptyString ->
  lower (field item "ferramenta") <> "uipath" ->
  _split_command_windows h (field item "caminho") = entry :: rest ->
  path_exists h entry = true ->
  path_isfile h entry = true ->
  one_of (lower (snd (splitext entry)))
    [".exe"; ".com"; ".py"; ".pyw"; ".bat"; ".cmd"; ".ps1"; ".lnk"] = false ->
  build_subprocess_command h item
    = Raise (ValueError (msg_not_executable entry (lower (snd (splitext entry)))))
  /\ contains entry
       (msg_not_executable entry (lower (snd (splitext entry)))) = true
  /\ contains (lower (snd (splitext entry)))
       (msg_not_executable entry (lower (snd (splitext entry)))) = true.
Proof.
  intros Htool Hres Hsplit Hex Hfile Hext.
  set (ext := lower (snd (splitext entry))) in *.
  split; [|split].
  - unfold build_subprocess_command.
    apply is_empty_false in Htool. rewrite Htool.
    destruct (is_empty (field item "caminho")) eqn:Hp.
    { apply is_empty_true in Hp. rewrite Hp in Hsplit. discriminate. }
    apply String.eqb_neq in Hres. cbn [orb]. rewrite Hres, Hsplit.
    cbv beta iota zeta. fold ext. rewrite !one_of_cons in Hext.
    repeat (apply orb_false_iff in Hext as [? Hext]).
    rewrite !one_of_cons.
    repeat match goal with E : String.eqb ext _ = false |- _ => rewrite E; clear E end.
    cbn [orb one_of existsb negb andb]. rewrite Hex, Hfile. reflexivity.
  - unfold msg_not_executable.
    do 5 apply contains_app_r. apply contains_here.
  - unfold msg_not_executable.
    do 9 apply contains_app_r. apply contains_here.
Qed.

Lemma C9_witness :
  build_subprocess_command (host_with_file readme) (mk_item "X" "other" readme)
    = Raise (ValueError (msg_not_executable readme ".txt"))
  /\ contains readme (msg_not_executable readme ".txt") = true
  /\ contains ".txt" (msg_not_executable readme ".txt") = true.
Proof.
  apply (C9_unexecutable_target_is_refused (host_with_file readme)
           (mk_item "X" "other" readme) readme []).
  - discriminate.
  - discriminate.
  - apply split_command_of_existing_path; [reflexivity | discriminate | reflexivity].
  - reflexivity.
  - reflexivity.
  - reflexivity.
Defined.

(** The claim C9 as it was stated fails for an item without a tool: an
    empty tool is not the reserved tool and the path is an existing text
    file, yet the builder stops at its first check and raises the error
    for incomplete items, whose message names neither the path nor the
    extension.  (On a machine where the file of the example does not
    exist, the example item is not refused at all: its path is returned
    as the command.) *)
Lemma C9_counterexample :
  let h := host_with_file readme in
  let item := mk_item "X" EmptyString readme in
  lower (field item "ferramenta") <> "uipath"
  /\ _split_command_windows h (field item "caminho") = [readme]
  /\ path_exists h readme = true
  /\ path_isfile h readme = true
  /\ lower (snd (splitext readme)) = ".txt"
  /\ build_subprocess_command h item = Raise (ValueError msg_missing)
  /\ contains readme msg_missing = false
  /\ contains ".txt" msg_missing = false
  /\ build_subprocess_command h item
     <> Raise (ValueError (msg_not_executable readme ".txt"))
  /\ build_subprocess_command host_without_files (mk_item "X" "other" readme)
     = Ok [readme].
Proof. vm_compute. repeat split; discriminate. Qed.

End ExecutorFacts.

(** ** The dispatch queue *)

Module QueueFacts.
Import PyStr Eff Orchestrator Vocabulary.

Lemma run_ops_conserves (ops : list queue_op) : forall q : InMemoryQueue,
  (popped (fst (run_ops ops q)) ++ snapshot (snd (run_ops ops q)))%list
  = (snapshot q ++ pushed ops)%list.
Proof.
  induction ops as [|[item|] ops IH]; intros q; simpl.
  - rewrite app_nil_r. reflexivity.
  - rewrite IH. unfold snapshot. simpl. rewrite <- app_assoc. reflexivity.
  - unfold get. destruct q as [[|item rest]]; simpl.
    + specialize (IH (mkQueue [])).
      destruct (run_ops ops (mkQueue [])) as [outs q'']. simpl in *. exact IH.
    + specialize (IH (mkQueue rest)).
      destruct (run_ops ops (mkQueue rest)) as [outs q'']. simpl in *.
      rewrite IH. reflexivity.
Qed.

(** C4. Whatever the interleaving of pushes and pops, the items popped so
    far followed by the items still queued are the items initially queued
    followed by the items pushed, in the order of insertion: nothing is
    lost, doubled or reordered.  A pop returns the oldest item left, and a
    pop on an empty queue raises [queue.Empty] and leaves the queue as it
    is. *)
Theorem C4_queue_is_fifo (ops : list queue_op) (q : InMemoryQueue) :
  (popped (fst (run_ops ops q)) ++ snapshot (snd (run_ops ops q)))%list
    = (snapshot q ++ pushed ops)%list
  /\ (popped (fst (run_ops ops new_queue)) ++ snapshot (snd (run_ops ops new_queue)))%list
    = pushed ops
  /\ fst (get (snd (run_ops ops q)))
    = match snapshot (snd (run_ops ops q)) with
      | [] => Raise QueueEmpty
      | oldest :: _ => Ok oldest
      end
  /\ get new_queue = (Raise QueueEmpty, new_queue).
Proof.
  split; [apply run_ops_conserves|].
  split; [apply (run_ops_conserves ops new_queue)|].
  split; [|reflexivity].
  unfold get, snapshot. destruct (_dq (snd (run_ops ops q))); reflexivity.
Qed.

End QueueFacts.

(** ** The duplicate guard *)

Module GuardFacts.
Import PyStr Eff Util Orchestrator Vocabulary.

Lemma allow_unfold item now g :
  allow item now g =
    let g' := if bool_decide (Some (minute_key now) = _last_minute_key g)
              then g else mkGuard (Some (minute_key now)) ∅ in
    if bool_decide (job_key item ∈ _seen g') then (Ok false, g')
    else (Ok true, mkGuard (_last_minute_key g') ({[job_key item]} ∪ _seen g')).
Proof. reflexivity. Qed.

Lemma allow_holds item now g :
  holds (snd (allow item now g)) (minute_key now) (job_key item).
Proof.
  rewrite allow_unfold. cbv zeta.
  destruct (bool_decide_reflect (Some (minute_key now) = _last_minute_key g)) as [E|E].
  - destruct (bool_decide_reflect (job_key item ∈ _seen g)) as [Hin|Hin]; simpl.
    + split; [symmetry; exact E | exact Hin].
    + split; [symmetry; exact E | set_solver].
  - simpl. destruct (bool_decide_reflect (job_key item ∈ (∅ : gset string))) as [Hin|Hin]; simpl.
    + set_solver.
    + split; [reflexivity | set_solver].
Qed.

Lemma allow_same_minute item now g :
  _last_minute_key g = Some (minute_key now) ->
  allow item now g =
    if bool_decide (job_key item ∈ _seen g) then (Ok false, g)
    else (Ok true, mkGuard (_last_minute_key g) ({[job_key item]} ∪ _seen g)).
Proof.
  intros Hk. rewrite allow_unfold. cbv zeta.
  destruct (bool_decide_reflect (Some (minute_key now) = _last_minute_key g)) as [E|E];
    [reflexivity | congruence].
Qed.

Lemma allow_keeps item now g mk key :
  minute_key now = mk -> holds g mk key -> holds (snd (allow item now g)) mk key.
Proof.
  intros <- [Hk Hs]. rewrite (allow_same_minute _ _ _ Hk).
  destruct (bool_decide (job_key item ∈ _seen g)); simpl.
  - split; assumption.
  - split; [exact Hk | set_solver].
Qed.

Lemma run_allows_keeps calls : forall g mk key,
  Forall (fun call : Item * NowParts => minute_key (snd call) = mk) calls ->
  holds g mk key -> holds (run_allows calls g) mk key.
Proof.
  induction calls as [|[item now] calls IH]; intros g mk key Hall Hg; simpl.
  - exact Hg.
  - apply Forall_cons_1 in Hall as [Hnow Hall]. simpl in Hnow.
    apply IH; [exact Hall | apply allow_keeps; assumption].
Qed.

Lemma allow_held item now g :
  holds g (minute_key now) (job_key item) -> allow item now g = (Ok false, g).
Proof.
  intros [Hk Hs]. rewrite (allow_same_minute _ _ _ Hk).
  rewrite bool_decide_eq_true_2 by exact Hs. reflexivity.
Qed.

Lemma allow_new_minute item now g :
  _last_minute_key g <> Some (minute_key now) -> fst (allow item now g) = Ok true.
Proof.
  intros Hk. rewrite allow_unfold. cbv zeta.
  destruct (bool_decide_reflect (Some (minute_key now) = _last_minute_key g)) as [E|E];
    [congruence|].
  simpl. rewrite bool_decide_eq_false_2 by set_solver. reflexivity.
Qed.

Lemma allow_first item now g :
  fst (allow item now g) = Ok (negb (already_seen g item now)).
Proof.
  rewrite allow_unfold. cbv zeta. unfold already_seen.
  destruct (bool_decide_reflect (Some (minute_key now) = _last_minute_key g)) as [E|E].
  - destruct (bool_decide_reflect (_last_minute_key g = Some (minute_key now))) as [E'|E'];
      [|congruence].
    simpl. destruct (bool_decide (job_key item ∈ _seen g)); reflexivity.
  - destruct (bool_decide_reflect (_last_minute_key g = Some (minute_key now))) as [E'|E'];
      [congruence|].
    simpl. rewrite bool_decide_eq_false_2 by set_solver. reflexivity.
Qed.

(** C3, as the guard has it.  In every guard state, the first of a series
    of [allow] calls for a job returns true exactly when the guard does
    not already hold that job's key for the minute of the call; as long as
    the calls in between carry the same minute key, any later call with
    the same job key and the same minute key returns false, so no two such
    calls both return true; and a call whose snapshot yields another
    minute key accepts the job again. *)
Theorem C3_duplicate_guard_per_minute
    (g : DuplicateGuard) (item item' : Item) (now now' later : NowParts)
    (between : list (Item * NowParts)) :
  job_key item' = job_key item ->
  minute_key now' = minute_key now ->
  Forall (fun call : Item * NowParts => minute_key (snd call) = minute_key now) between ->
  minute_key later <> minute_key now ->
  let g1 := snd (allow item now g) in
  let g2 := run_allows between g1 in
  let g3 := snd (allow item' now' g2) in
  fst (allow item now g) = Ok (negb (already_seen g item now))
  /\ fst (allow item' now' g2) = Ok false
  /\ fst (allow item later g3) = Ok true.
Proof.
  intros Hkey Hmin Hbetween Hlater g1 g2 g3.
  assert (H2 : holds g2 (minute_key now') (job_key item')).
  { rewrite Hkey, Hmin. apply run_allows_keeps; [exact Hbetween | apply allow_holds]. }
  split; [apply allow_first|]. split.
  - rewrite (allow_held _ _ _ H2). reflexivity.
  - apply allow_new_minute. unfold g3. rewrite (allow_held _ _ _ H2). simpl.
    destruct H2 as [Hk _]. rewrite Hk. congruence.
Qed.

Lemma C3_witness :
  fst (allow sample_item now_0705 new_guard) = Ok true
  /\ fst (allow sample_item now_0705
            (run_allows [(other_item, now_0705)]
               (snd (allow sample_item now_0705 new_guard)))) = Ok false
  /\ fst (allow sample_item now_0706
            (snd (allow sample_item now_0705
                    (run_allows [(other_item, now_0705)]
                       (snd (allow sample_item now_0705 new_guard)))))) = Ok true.
Proof.
  apply (C3_duplicate_guard_per_minute new_guard sample_item sample_item
           now_0705 now_0705 now_0706 [(other_item, now_0705)]).
  - reflexivity.
  - reflexivity.
  - constructor; [reflexivity | constructor].
  - vm_compute. discriminate.
Defined.

(** The claim C3 as it was stated, for every guard state, fails in a state
    that already holds the job for the minute: there two successive calls
    with the same job and the same minute key return false and false. *)
Lemma C3_counterexample :
  let g := snd (allow sample_item now_0705 new_guard) in
  fst (allow sample_item now_0705 g) = Ok false
  /\ fst (allow sample_item now_0705 (snd (allow sample_item now_0705 g))) = Ok false
  /\ (fst (allow sample_item now_0705 g),
      fst (allow sample_item now_0705 (snd (allow sample_item now_0705 g))))
     <> (Ok true, Ok false).
Proof. vm_compute. repeat split; discriminate. Qed.

End GuardFacts.

(** ** The scheduler tick *)

Module SchedulerFacts.
Import PyStr Eff Models Util DB Orchestrator Executor Controller Vocabulary.

Lemma allow_returns item now g : exists b g', allow item now g = (Ok b, g').
Proof.
  rewrite GuardFacts.allow_unfold. cbv zeta.
  match goal with |- context [bool_decide (job_key item ∈ ?x)] =>
    destruct (bool_decide (job_key item ∈ x)) end; eauto.
Qed.

(** The three ways through the body of the loop of [tick_once]. *)
Lemma tick_item_rejected now item s g' :
  allow item now (_guard s) = (Ok false, g') ->
  exists s', tick_item now item s = (Ok tt, s')
    /\ _guard s' = g' /\ db s' = db s /\ out_queue s' = out_queue s
    /\ log_to_db s' = log_to_db s.
Proof.
  intros Ha. unfold tick_item, bind, on_guard. rewrite Ha. simpl.
  eexists. split; [reflexivity|]. simpl. repeat split; reflexivity.
Qed.

Lemma tick_item_pushed now item s g' :
  allow item now (_guard s) = (Ok true, g') ->
  log_to_db s = true ->
  match faults (db s) with [] => True | o :: _ => o = None end ->
  exists s', tick_item now item s = (Ok tt, s')
    /\ _guard s' = g' /\ faults (db s') = tail (faults (db s))
    /\ processes (db s') = processes (db s)
    /\ snapshot (out_queue s') = (snapshot (out_queue s) ++ [item])%list
    /\ log_to_db s' = true.
Proof.
  intros Ha Hlog Hf.
  unfold tick_item, bind, on_guard, logging_info, modify, gets, on_db, on_queue.
  rewrite Ha. simpl. rewrite Hlog.
  unfold append_log, bind, connect, modify. simpl.
  destruct (faults (db s)) as [|[m|] tape] eqn:Ef; try discriminate; simpl;
    (eexists; split; [reflexivity|]); simpl; rewrite ?Ef; repeat split; reflexivity.
Qed.



(** Without a refused operation every accepted job is pushed. *)
Lemma tick_items_all_pushed now due : forall s,
  log_to_db s = true ->
  Forall (fun o => o = None) (faults (db s)) ->
  exists s', for_each due (tick_item now) s = (Ok tt, s')
    /\ snapshot (out_queue s')
       = (snapshot (out_queue s) ++ accepted now due (_guard s))%list.
Proof.
  induction due as [|item due IH]; intros s Hlog Hf; simpl.
  - exists s. split; [reflexivity|]. rewrite app_nil_r. reflexivity.
  - destruct (allow_returns item now (_guard s)) as (b & g' & Ha).
    rewrite Ha. unfold bind. destruct b.
    + destruct (tick_item_pushed now item s g' Ha Hlog) as (s1 & -> & Hg & Hf1 & _ & Hq & Hlog1).
      { destruct Hf; [exact I | assumption]. }
      destruct (IH s1 Hlog1) as (s' & -> & Hq').
      { rewrite Hf1. destruct Hf; simpl; [constructor | assumption]. }
      exists s'. split; [reflexivity|].
      rewrite Hq', Hq, Hg, <- app_assoc. reflexivity.
    + destruct (tick_item_rejected _ _ _ _ Ha) as (s1 & -> & Hg & Hdb & Hq & Hlog1).
      destruct (IH s1) as (s' & -> & Hq').
      { rewrite Hlog1. exact Hlog. }
      { rewrite Hdb. exact Hf. }
      exists s'. split; [reflexivity|]. rewrite Hq', Hq, Hg. reflexivity.
Qed.

Lemma poll_listing_ok now s tape :
  faults (db s) = None :: tape ->
  exists s0, on_db (poll_due_processes now) s = (Ok (due_now now (db s)), s0)
    /\ faults (db s0) = tape /\ _guard s0 = _guard s
    /\ out_queue s0 = out_queue s /\ log_to_db s0 = log_to_db s.
Proof.
  intros Hf. unfold on_db, poll_due_processes, list_processes, bind, connect, gets, ret.
  rewrite Hf. simpl. eexists. split; [reflexivity|]. simpl. repeat split; reflexivity.
Qed.

Lemma tick_once_without_fault now s :
  log_to_db s = true ->
  Forall (fun o => o = None) (faults (db s)) ->
  exists s', tick_once now s = (Ok tt, s')
    /\ snapshot (out_queue s')
       = (snapshot (out_queue s)
            ++ accepted now (due_now now (db s)) (_guard s))%list.
Proof.
  intros Hlog Hf. unfold tick_once, bind.
  destruct (faults (db s)) as [|o tape] eqn:Ef.
  - assert (Hpoll : on_db (poll_due_processes now) s = (Ok (due_now now (db s)), s)).
    { unfold on_db, poll_due_processes, list_processes, bind, connect, gets, ret.
      rewrite Ef. simpl. destruct s as [[]]; reflexivity. }
    rewrite Hpoll. apply tick_items_all_pushed; [exact Hlog | rewrite Ef; constructor].
  - apply Forall_cons_1 in Hf as [-> Hf].
    destruct (poll_listing_ok now s tape Ef) as (s0 & -> & Hf0 & Hg0 & Hq0 & Hlog0).
    destruct (tick_items_all_pushed now (due_now now (db s)) s0) as (s' & -> & Hq).
    { rewrite Hlog0. exact Hlog. }
    { rewrite Hf0. exact Hf. }
    exists s'. split; [reflexivity|]. rewrite Hq, Hq0, Hg0. reflexivity.
Qed.

Lemma in_window_spec hour : in_window hour = true <-> 7 <= hour < 18.
Proof. unfold in_window. rewrite andb_true_iff, Z.leb_le, Z.ltb_lt. tauto. Qed.




(** C8. A tick outside the operating window does no work: the handler
    only emits the waiting status; the scheduler with its database, queue
    and duplicate guard, the process and the running item are left as they
    were.  The blocking loop ends on such an hour without a tick, and
    switching the scheduler on at such an hour leaves the queue and the
    guard alone as well. *)
Theorem C8_no_work_outside_the_window
    (h : Host) (hour : Z) (now : NowParts) (c : OrchestratorController)
    (clock : list (Z * NowParts)) (s : DBBackedScheduler) :
  ~ (7 <= hour < 18) ->
  (exists c',
     _on_scheduler_tick h hour now c = (Ok tt, c')
     /\ _scheduler c' = _scheduler c
     /\ queue c' = queue c
     /\ _guard (_scheduler c') = _guard (_scheduler c)
     /\ _process c' = _process c
     /\ _running_item c' = _running_item c
     /\ emitted c' = (emitted c ++ [status_text msg_outside_window])%list)
  /\ loop ((hour, now) :: clock) s = (Some (Ok tt), s)
  /\ _scheduler (snd (start_scheduler h hour now c)) = _scheduler c.
Proof.
  intros Hout.
  assert (Hw : (7 <=? hour) && (hour <? 18) = false).
  { apply not_true_is_false. intros E. apply Hout, in_window_spec, E. }
  split; [|split].
  - unfold _on_scheduler_tick. rewrite Hw. simpl.
    eexists. split; [reflexivity|]. simpl. repeat split; reflexivity.
  - simpl. unfold in_window. rewrite Hw. reflexivity.
  - unfold start_scheduler, bind, gets. simpl.
    destruct (_running_scheduler c); simpl; [reflexivity|].
    unfold _on_scheduler_tick. rewrite Hw. reflexivity.
Qed.

Lemma C8_witness :
  queue (snd (_on_scheduler_tick host_without_files 6 now_0705
                (new_controller db_failing_second_log)))
    = new_queue
  /\ _guard (_scheduler (snd (_on_scheduler_tick host_without_files 18 now_0705
                               (new_controller db_failing_second_log))))
    = new_guard
  /\ loop [(18, now_0705)] (new_scheduler db_failing_second_log new_queue 60 true)
    = (Some (Ok tt), new_scheduler db_failing_second_log new_queue 60 true).
Proof.
  destruct (C8_no_work_outside_the_window host_without_files 6 now_0705
              (new_controller db_failing_second_log) []
              (new_scheduler db_failing_second_log new_queue 60 true))
    as ((c6 & E6 & _ & Hq6 & _) & _); [lia|].
  destruct (C8_no_work_outside_the_window host_without_files 18 now_0705
              (new_controller db_failing_second_log) []
              (new_scheduler db_failing_second_log new_queue 60 true))
    as ((c18 & E18 & _ & _ & Hg18 & _) & Hloop & _); [lia|].
  rewrite E6, E18. simpl. split; [exact Hq6|]. split; [exact Hg18 | exact Hloop].
Defined.

End SchedulerFacts.

(** ** More on the schedule matcher *)

Module MatcherFacts.
Import PyStr PyStrFacts Util Vocabulary UtilFacts Terms.

(** *** The pieces of a field *)

Lemma split_pieces_of_piece (q : ascii -> bool) sep s :
  all_chars q s = true ->
  Forall (fun piece => all_chars q piece = true) (split sep s).
Proof.
  induction s as [|c r IH]; simpl; intros H.
  - constructor; [reflexivity | constructor].
  - apply andb_true_iff in H as [Hc Hr]. specialize (IH Hr).
    destruct (Ascii.eqb c sep).
    + constructor; [reflexivity | exact IH].
    + destruct (split sep r) as [|h t]; [constructor; [simpl; rewrite Hc; reflexivity | constructor]|].
      apply Forall_cons_1 in IH as [Hh Ht].
      constructor; [simpl; rewrite Hc, Hh; reflexivity | exact Ht].
Qed.

Lemma split_pieces_without_sep sep s :
  Forall (fun piece => all_chars (fun c => negb (Ascii.eqb c sep)) piece = true)
    (split sep s).
Proof.
  induction s as [|c r IH]; simpl.
  - constructor; [reflexivity | constructor].
  - destruct (Ascii.eqb c sep) eqn:Hc.
    + constructor; [reflexivity | exact IH].
    + destruct (split sep r) as [|h t]; [constructor; [simpl; rewrite Hc; reflexivity | constructor]|].
      apply Forall_cons_1 in IH as [Hh Ht].
      constructor; [simpl; rewrite Hc, Hh; reflexivity | exact Ht].
Qed.

Lemma split_all_of_piece (q : ascii -> bool) sep (tokens : list string) :
  Forall (fun t => all_chars q t = true) tokens ->
  Forall (fun piece => all_chars q piece = true) (split_all sep tokens).
Proof.
  unfold split_all. induction 1 as [|t ts Ht _ IH]; simpl; [constructor|].
  apply Forall_app. split; [apply split_pieces_of_piece, Ht | exact IH].
Qed.

Lemma split_all_without_sep sep (tokens : list string) :
  Forall (fun piece => all_chars (fun c => negb (Ascii.eqb c sep)) piece = true)
    (split_all sep tokens).
Proof.
  unfold split_all. induction tokens as [|t ts IH]; simpl; [constructor|].
  apply Forall_app. split; [apply split_pieces_without_sep | exact IH].
Qed.

Lemma all_chars_and (p q : ascii -> bool) s :
  all_chars p s = true -> all_chars q s = true ->
  all_chars (fun c => p c && q c) s = true.
Proof.
  induction s as [|c r IH]; simpl; [reflexivity|].
  intros Hp Hq. apply andb_true_iff in Hp as [Hp1 Hp2].
  apply andb_true_iff in Hq as [Hq1 Hq2].
  rewrite Hp1, Hq1, (IH Hp2 Hq2). reflexivity.
Qed.

Lemma pieces_have_no_delimiter raw :
  Forall (fun piece => has_delimiter piece = false) (split_pieces raw).
Proof.
  unfold split_pieces.
  pose proof (split_all_without_sep ";" [raw]) as H1.
  pose proof (split_all_without_sep "|" (split_all ";" [raw])) as H2.
  pose proof (split_all_of_piece _ "|" _ H1) as H1'.
  pose proof (split_all_without_sep "," (split_all "|" (split_all ";" [raw]))) as H3.
  pose proof (split_all_of_piece _ "," _ H1') as H1''.
  pose proof (split_all_of_piece _ "," _ H2) as H2'.
  rewrite List.Forall_forall in *. intros p Hp.
  specialize (H1'' p Hp). specialize (H2' p Hp). specialize (H3 p Hp).
  unfold has_delimiter. apply negb_false_iff.
  pose proof (all_chars_and _ _ _ (all_chars_and _ _ _ H1'' H2') H3) as H.
  revert H. apply all_chars_impl. intros c Hc. unfold is_delimiter.
  destruct (Ascii.eqb c ";"), (Ascii.eqb c "|"), (Ascii.eqb c ","); simpl in *; congruence.
Qed.

Lemma has_delimiter_strip s : has_delimiter s = false -> has_delimiter (strip s) = false.
Proof.
  unfold has_delimiter. intros H. apply negb_false_iff in H.
  apply negb_false_iff, all_chars_strip, H.
Qed.

(** X1. Every value [_split_values] returns is a usable token: it is not
    empty, it has no blank at either end and it holds none of the three
    separators. *)
Theorem split_values_returns_clean_tokens (raw token : string) :
  In token (_split_values raw) ->
  token <> EmptyString /\ strip token = token /\ has_delimiter token = false.
Proof.
  unfold _split_values. destruct (is_empty raw); [intros []|].
  intros H. apply in_map_iff in H as (p & <- & Hp).
  apply filter_In in Hp as [Hp Hne]. apply negb_true_iff in Hne.
  split; [apply is_empty_false, Hne|]. split; [apply strip_idem|].
  apply has_delimiter_strip.
  pose proof (pieces_have_no_delimiter raw) as Hall.
  rewrite List.Forall_forall in Hall. apply Hall, Hp.
Qed.

Lemma split_values_returns_clean_tokens_witness :
  In "08" (_split_values " 07 ;08| 09,,") /\
  "08" <> EmptyString /\ strip "08" = "08" /\ has_delimiter "08" = false.
Proof.
  assert (H : In "08" (_split_values " 07 ;08| 09,,")) by (vm_compute; tauto).
  split; [exact H|].
  exact (split_values_returns_clean_tokens " 07 ;08| 09,," "08" H).
Defined.

(** *** One cut at every separator *)

Lemma split_is_split_by sep s : split sep s = split_by (fun c => Ascii.eqb c sep) s.
Proof.
  induction s as [|c r IH]; simpl; [reflexivity|]. rewrite IH. reflexivity.
Qed.

Lemma split_by_ext (p q : ascii -> bool) s :
  (forall c, p c = q c) -> split_by p s = split_by q s.
Proof.
  intros H. induction s as [|c r IH]; simpl; [reflexivity|].
  rewrite H, IH. reflexivity.
Qed.

Lemma split_by_nonempty p s : split_by p s <> [].
Proof.
  destruct s as [|c r]; simpl; [discriminate|].
  destruct (p c); [discriminate|]. destruct (split_by p r); discriminate.
Qed.

Lemma flat_map_split_by (p : ascii -> bool) b s :
  flat_map (split b) (split_by p s)
  = split_by (fun c => p c || Ascii.eqb c b) s.
Proof.
  induction s as [|c r IH]; simpl; [reflexivity|].
  destruct (p c) eqn:Hp; simpl.
  - rewrite IH. reflexivity.
  - destruct (split_by p r) as [|h t] eqn:Hs; [destruct (split_by_nonempty _ _ Hs)|].
    simpl in *. rewrite <- IH.
    destruct (Ascii.eqb c b); simpl; [reflexivity|].
    rewrite split_is_split_by.
    destruct (split_by (fun c0 => Ascii.eqb c0 b) h) as [|h' t'] eqn:Hh;
      [destruct (split_by_nonempty _ _ Hh) | reflexivity].
Qed.

Lemma split_pieces_is_split_by raw : split_pieces raw = split_by is_delimiter raw.
Proof.
  unfold split_pieces, split_all at 3. simpl. rewrite app_nil_r.
  rewrite split_is_split_by. unfold split_all.
  rewrite !flat_map_split_by. apply split_by_ext. reflexivity.
Qed.

Lemma split_by_app (p : ascii -> bool) first d tail :
  all_chars (fun c => negb (p c)) first = true -> p d = true ->
  split_by p (first ++ String d tail) = first :: split_by p tail.
Proof.
  intros Hf Hd. induction first as [|c r IH]; simpl.
  - rewrite Hd. reflexivity.
  - simpl in Hf. apply andb_true_iff in Hf as [Hc Hr].
    apply negb_true_iff in Hc. rewrite Hc, (IH Hr). reflexivity.
Qed.

Lemma split_by_none (p : ascii -> bool) s :
  all_chars (fun c => negb (p c)) s = true -> split_by p s = [s].
Proof.
  induction s as [|c r IH]; simpl; [reflexivity|].
  intros H. apply andb_true_iff in H as [Hc Hr].
  apply negb_true_iff in Hc. rewrite Hc, (IH Hr). reflexivity.
Qed.

Lemma clean_token_parts t :
  clean_token t = true ->
  is_empty t = false /\ strip t = t
  /\ all_chars (fun c => negb (is_delimiter c)) t = true.
Proof.
  unfold clean_token, has_delimiter. intros H.
  apply andb_true_iff in H as [H H3]. apply andb_true_iff in H as [H1 H2].
  apply negb_true_iff in H1. apply String.eqb_eq in H2.
  apply negb_true_iff, negb_false_iff in H3. auto.
Qed.

Lemma split_by_weave first (rest : list (ascii * string)) :
  clean_token first = true ->
  Forall (fun dt : ascii * string =>
            is_delimiter (fst dt) = true /\ clean_token (snd dt) = true) rest ->
  split_by is_delimiter (weave first rest) = first :: map snd rest.
Proof.
  revert first. induction rest as [|[d t] rest IH]; intros first Hf Hall; simpl.
  - apply split_by_none. apply (clean_token_parts _ Hf).
  - apply Forall_cons_1 in Hall as [[Hd Ht] Hall]. simpl in *.
    rewrite split_by_app; [| apply (clean_token_parts _ Hf) | exact Hd].
    rewrite (IH t Ht Hall). reflexivity.
Qed.

Lemma keep_clean_tokens (l : list string) :
  Forall (fun t => clean_token t = true) l ->
  map strip (List.filter (fun t => negb (is_empty (strip t))) l) = l.
Proof.
  induction 1 as [|t l Ht _ IH]; simpl; [reflexivity|].
  destruct (clean_token_parts _ Ht) as (He & Hs & _).
  rewrite Hs, He. simpl. rewrite Hs, IH. reflexivity.
Qed.

(** X2. The three passes of [_split_values] amount to one cut of the
    field at every comma, semicolon and pipe, in the order of the text:
    the result is the list of the non-blank pieces, trimmed. *)
Theorem split_values_cuts_at_every_separator (raw : string) :
  _split_values raw
  = if is_empty raw then []
    else map strip
           (List.filter (fun t => negb (is_empty (strip t)))
              (split_by is_delimiter raw)).
Proof. unfold _split_values. rewrite split_pieces_is_split_by. reflexivity. Qed.

(** X3. Writing tokens one after the other with any mix of the three
    separators between them and reading the text back with
    [_split_values] gives the same tokens in the same order, provided
    every token is not empty, trimmed and free of separators. *)
Theorem split_values_reads_back_the_tokens
    (first : string) (rest : list (ascii * string)) :
  clean_token first = true ->
  Forall (fun dt : ascii * string =>
            is_delimiter (fst dt) = true /\ clean_token (snd dt) = true) rest ->
  _split_values (weave first rest) = first :: map snd rest.
Proof.
  intros Hf Hall. unfold _split_values.
  assert (He : is_empty (weave first rest) = false).
  { destruct (clean_token_parts _ Hf) as (He & _).
    destruct first; [discriminate|]. destruct rest as [|[d t] rest]; reflexivity. }
  rewrite He, split_pieces_is_split_by, (split_by_weave _ _ Hf Hall).
  apply keep_clean_tokens. constructor; [exact Hf|].
  clear He Hf. induction Hall as [|[d t] more [_ Ht] _ IH]; simpl; constructor; assumption.
Qed.

Lemma split_values_reads_back_the_tokens_witness :
  _split_values "07;Segunda|08,9" = ["07"; "Segunda"; "08"; "9"].
Proof.
  apply (split_values_reads_back_the_tokens "07"
           [(";"%char, "Segunda"); ("|"%char, "08"); (","%char, "9")]).
  - reflexivity.
  - repeat constructor.
Defined.

(** *** Cells that are whole floats *)

Lemma int_acc_of_uint (d : Decimal.uint) : forall acc,
  int_acc acc (NilEmpty.string_of_uint d) = Some (uint_val acc d).
Proof. induction d; intros acc; simpl; try reflexivity; apply IHd. Qed.

Lemma uint_val_of_uint_acc (d : Decimal.uint) : forall p : positive,
  Z.pos (Pos.of_uint_acc d p) = uint_val (Z.pos p) d.
Proof.
  induction d; intros p; simpl; try reflexivity; rewrite IHd; f_equal; lia.
Qed.

Lemma uint_val_of_uint (d : Decimal.uint) :
  uint_val 0 d = Z.of_N (Pos.of_uint d).
Proof.
  induction d; simpl; try reflexivity; try exact IHd;
    rewrite uint_val_of_uint_acc; reflexivity.
Qed.

Lemma digits_of_uint (d : Decimal.uint) :
  all_chars is_decimal (NilEmpty.string_of_uint d) = true.
Proof. induction d; simpl; try reflexivity; exact IHd. Qed.

Lemma string_of_pos (p : positive) :
  of_Z (Z.pos p) = NilEmpty.string_of_uint (Pos.to_uint p)
  /\ is_empty (of_Z (Z.pos p)) = false.
Proof.
  unfold of_Z. simpl. pose proof (DecimalPos.Unsigned.to_uint_nonnil p) as Hn.
  destruct (Pos.to_uint p); try congruence; split; reflexivity.
Qed.

Lemma of_Z_numeric n : 0 <= n -> numeric (of_Z n) = true.
Proof.
  intros Hn. destruct n as [|p|p]; [reflexivity | | lia].
  destruct (string_of_pos p) as [E He]. unfold numeric. rewrite He, E.
  apply digits_of_uint.
Qed.

(** The decimal writing of a positive number has no leading zero, so a
    number of [k] digits is at least [10 ^ (k - 1)]. *)
Lemma length_of_uint (d : Decimal.uint) :
  String.length (NilEmpty.string_of_uint d) = Decimal.nb_digits d.
Proof. induction d; simpl; congruence. Qed.

Lemma uint_val_lower (d : Decimal.uint) : forall acc,
  0 <= acc -> acc * 10 ^ Z.of_nat (Decimal.nb_digits d) <= uint_val acc d.
Proof.
  induction d; intros acc Ha; cbn [uint_val Decimal.nb_digits];
    [rewrite Z.pow_0_r; lia | ..];
    (rewrite Nat2Z.inj_succ, Z.pow_succ_r by lia;
     etransitivity; [|apply IHd; lia];
     pose proof (Z.pow_nonneg 10 (Z.of_nat (Decimal.nb_digits d)) ltac:(lia));
     nia).
Qed.

Lemma uint_val_of_pos (p : positive) : uint_val 0 (Pos.to_uint p) = Z.pos p.
Proof. rewrite uint_val_of_uint, DecimalPos.Unsigned.of_to. reflexivity. Qed.

Lemma pos_digits_lower (p : positive) :
  10 ^ (Z.of_nat (Decimal.nb_digits (Pos.to_uint p)) - 1) <= Z.pos p.
Proof.
  rewrite <- (uint_val_of_pos p).
  pose proof (DecimalPos.Unsigned.to_of (Pos.to_uint p)) as Hnorm.
  rewrite DecimalPos.Unsigned.of_to in Hnorm. simpl in Hnorm.
  pose proof (DecimalPos.Unsigned.to_uint_nonnil p) as Hnil.
  pose proof (DecimalPos.Unsigned.to_uint_nonzero p) as Hzero.
  destruct (Pos.to_uint p) as [|r|r|r|r|r|r|r|r|r|r]; [congruence | | ..].
  { exfalso. unfold Decimal.unorm in Hnorm. rewrite DecimalFacts.nzhead_D0 in Hnorm.
    destruct (Decimal.nzhead r) eqn:E;
      try (symmetry in Hnorm; revert Hnorm; rewrite <- E;
           apply DecimalFacts.nzhead_nonzero).
    apply Hzero. exact Hnorm. }
  all: cbn [uint_val Decimal.nb_digits];
    rewrite Nat2Z.inj_succ;
    replace (Z.succ (Z.of_nat (Decimal.nb_digits r)) - 1)
      with (Z.of_nat (Decimal.nb_digits r)) by lia;
    etransitivity; [|apply uint_val_lower; lia];
    pose proof (Z.pow_nonneg 10 (Z.of_nat (Decimal.nb_digits r)) ltac:(lia));
    nia.
Qed.

Lemma of_Z_within_limit n :
  0 <= n < 10 ^ int_max_str_digits -> within_int_limit (of_Z n) = true.
Proof.
  intros [Hn Hlt]. destruct n as [|p|p]; [reflexivity | | lia].
  destruct (string_of_pos p) as [E _]. unfold within_int_limit.
  rewrite E, length_of_uint. apply Z.leb_le.
  pose proof (pos_digits_lower p) as Hlow.
  destruct (Z.le_gt_cases (Z.of_nat (Decimal.nb_digits (Pos.to_uint p)))
              int_max_str_digits) as [Hle|Hgt]; [exact Hle|].
  exfalso.
  assert (Hpow : 10 ^ int_max_str_digits
                 <= 10 ^ (Z.of_nat (Decimal.nb_digits (Pos.to_uint p)) - 1)).
  { apply Z.pow_le_mono_r; [lia|]. unfold int_max_str_digits in *. lia. }
  apply (Z.lt_irrefl (Z.pos p)).
  eapply Z.lt_le_trans; [exact Hlt|]. eapply Z.le_trans; [exact Hpow | exact Hlow].
Qed.

(** Reading back the decimal writing of a natural number within the limit
    of [int] gives the number. *)
Lemma int_of_Z n : 0 <= n < 10 ^ int_max_str_digits -> int (of_Z n) = Some n.
Proof.
  intros Hn. pose proof (of_Z_within_limit n Hn) as Hl.
  destruct Hn as [Hn _]. destruct n as [|p|p]; [reflexivity | | lia].
  destruct (string_of_pos p) as [E He]. rewrite (int_within_limit _ He Hl), E.
  rewrite int_acc_of_uint, uint_val_of_pos. reflexivity.
Qed.

(** Every finite float is below [2 ^ 1024], far below the limit. *)
Lemma float_range_within_limit n : n < 2 ^ 1024 -> n < 10 ^ int_max_str_digits.
Proof.
  intros H. eapply Z.lt_le_trans; [exact H|].
  apply Z.leb_le. vm_compute. reflexivity.
Qed.

Lemma matches_by_normal_form v v' cur :
  _normalize_cell v = _normalize_cell v' -> _matches v cur = _matches v' cur.
Proof. intros H. unfold _matches. rewrite H. reflexivity. Qed.

(** X4. A cell read as a whole float matches by its integer value: for
    every natural number [n] in the range of the floats (below 2^1024),
    the cell holding the float [n] matches a purely numeric snapshot value
    that [int] converts to [m] (a value of at most 4300 digits) exactly
    when [m] is [n], so the float 7.0 matches the hour 07. *)
Theorem whole_float_cell_matches_by_value (n m : Z) (current : string) :
  0 <= n < 2 ^ 1024 -> numeric current = true -> int current = Some m ->
  _matches (CWhole n) current = (n =? m).
Proof.
  intros [Hn Hfloat] Hc Hm.
  pose proof (of_Z_numeric n Hn) as Hnum.
  pose proof (int_of_Z n (conj Hn (float_range_within_limit n Hfloat))) as Hint.
  rewrite (matches_by_normal_form (CWhole n) (CText (of_Z n))).
  - rewrite matches_single_token.
    + apply (token_matches_numeric _ _ _ _ Hnum Hc Hint Hm).
    + apply numeric_strip, Hnum.
    + apply (numeric_parts _ Hnum).
    + apply numeric_no_delimiter, Hnum.
    + apply numeric_not_wildcard, Hnum.
  - rewrite normalize_text. symmetry. apply numeric_strip, Hnum.
Qed.

Lemma whole_float_cell_matches_by_value_witness :
  _matches (CWhole 7) "07" = true /\ _matches (CWhole 7) "17" = false.
Proof.
  split.
  - apply (whole_float_cell_matches_by_value 7 7 "07");
      [split; [lia | reflexivity] | reflexivity | reflexivity].
  - apply (whole_float_cell_matches_by_value 7 17 "17");
      [split; [lia | reflexivity] | reflexivity | reflexivity].
Defined.

(** *** Normal forms *)

Lemma of_Z_no_space n : no_space (of_Z n) = true.
Proof.
  destruct n as [|p|p]; [reflexivity | |].
  - apply decimal_no_space. apply (numeric_parts _ (of_Z_numeric (Z.pos p) ltac:(lia))).
  - unfold of_Z. simpl.
    assert (H : no_space (NilZero.string_of_uint (Pos.to_uint p)) = true).
    { destruct (string_of_pos p) as [E _]. unfold of_Z in E. simpl in E. rewrite E.
      apply decimal_no_space, digits_of_uint. }
    unfold no_space in *. simpl. exact H.
Qed.

Lemma normalize_trimmed v : strip (_normalize_cell v) = _normalize_cell v.
Proof.
  destruct v as [| |n|s]; try reflexivity.
  - apply strip_no_space, of_Z_no_space.
  - rewrite normalize_text. apply strip_idem.
Qed.

(** X5. Normalising is idempotent and its result is trimmed, so the three
    values of the item [to_process_item] makes are normal forms: the item
    has the keys processo, ferramenta and caminho holding the normalised
    cells of the row, and the command builder, which trims the values it
    reads, reads them unchanged. *)
Theorem process_item_holds_normal_forms (row : gmap string cell) (v : cell) :
  _normalize_cell (CText (_normalize_cell v)) = _normalize_cell v
  /\ to_process_item row !! "processo"
     = Some (_normalize_cell (row_get row "Nome_Processo"))
  /\ to_process_item row !! "ferramenta"
     = Some (_normalize_cell (row_get row "Ferramenta"))
  /\ to_process_item row !! "caminho"
     = Some (_normalize_cell (row_get row "Caminho"))
  /\ dom (to_process_item row)
     = ({["processo"; "ferramenta"; "caminho"]} : gset string)
  /\ Executor.field (to_process_item row) "ferramenta"
     = _normalize_cell (row_get row "Ferramenta")
  /\ Executor.field (to_process_item row) "caminho"
     = _normalize_cell (row_get row "Caminho")
  /\ Executor.field (to_process_item row) "processo"
     = _normalize_cell (row_get row "Nome_Processo").
Proof.
  split; [rewrite normalize_text; apply normalize_trimmed|].
  assert (H1 : to_process_item row !! "processo"
               = Some (_normalize_cell (row_get row "Nome_Processo"))) by reflexivity.
  assert (H2 : to_process_item row !! "ferramenta"
               = Some (_normalize_cell (row_get row "Ferramenta"))) by reflexivity.
  assert (H3 : to_process_item row !! "caminho"
               = Some (_normalize_cell (row_get row "Caminho"))) by reflexivity.
  split; [exact H1|]. split; [exact H2|]. split; [exact H3|]. split.
  - unfold to_process_item. rewrite !dom_insert_L, dom_empty_L. set_solver.
  - unfold Executor.field. rewrite H1, H2, H3, !normalize_trimmed. auto.
Qed.

(** *** Fields and snapshot values that never match *)

Lemma token_matches_blank_now t cur :
  is_empty (strip cur) = true -> token_matches t cur = false.
Proof. unfold token_matches. intros ->. rewrite orb_true_r. reflexivity. Qed.

Lemma matches_empty_field v cur :
  _normalize_cell v = EmptyString -> _matches v cur = false.
Proof. intros H. unfold _matches. rewrite H. reflexivity. Qed.

(** X6. A schedule field that is missing from the row, or holds None, a
    NaN or only blanks, never matches: with one such field among the
    seven, [should_enqueue] is false at every time. *)
Theorem row_with_an_empty_field_is_never_due
    (row : gmap string cell) (now : NowParts) (key : string) :
  In key schedule_fields ->
  _normalize_cell (row_get row key) = EmptyString ->
  should_enqueue row now = false.
Proof.
  intros Hk He. unfold should_enqueue. unfold schedule_fields in Hk. simpl in Hk.
  destruct Hk as [<-|[<-|[<-|[<-|[<-|[<-|[<-|[]]]]]]]];
    rewrite (matches_empty_field _ _ He);
    rewrite ?andb_false_r; reflexivity.
Qed.

Lemma row_with_an_empty_field_is_never_due_witness :
  should_enqueue (delete "hora" all_todos_row) sample_now = false
  /\ should_enqueue (<["dia" := CText "   "]> all_todos_row) sample_now = false
  /\ should_enqueue (<["ano" := CNaN]> all_todos_row) sample_now = false.
Proof.
  split; [|split].
  - apply (row_with_an_empty_field_is_never_due _ _ "hora"); [simpl; tauto | reflexivity].
  - apply (row_with_an_empty_field_is_never_due _ _ "dia"); [simpl; tauto | reflexivity].
  - apply (row_with_an_empty_field_is_never_due _ _ "ano"); [simpl; tauto | reflexivity].
Defined.

(** X7. A blank snapshot value is matched by the wildcard only: for a
    snapshot value that is empty once trimmed, a field matches exactly
    when its normal form is the wildcard token. *)
Theorem blank_snapshot_matches_only_the_wildcard (v : cell) (current : string) :
  strip current = EmptyString ->
  _matches v current = String.eqb (lower (_normalize_cell v)) "todos".
Proof.
  intros Hc. assert (Hb : is_empty (strip current) = true) by (rewrite Hc; reflexivity).
  unfold _matches. destruct (is_empty (_normalize_cell v)) eqn:He.
  - apply is_empty_true in He. rewrite He. reflexivity.
  - destruct (String.eqb (lower (_normalize_cell v)) "todos"); [reflexivity|].
    destruct (_split_values (_normalize_cell v)) as [|t ts] eqn:Hsv.
    + apply token_matches_blank_now, Hb.
    + apply not_true_is_false. intros E.
      apply existsb_exists in E as (x & _ & Hx).
      rewrite (token_matches_blank_now _ _ Hb) in Hx. discriminate.
Qed.

Lemma blank_snapshot_matches_only_the_wildcard_witness :
  _matches (CText "TODOS") "  " = true /\ _matches (CText "07, ") "  " = false.
Proof.
  split.
  - rewrite (blank_snapshot_matches_only_the_wildcard (CText "TODOS") "  "); reflexivity.
  - rewrite (blank_snapshot_matches_only_the_wildcard (CText "07, ") "  "); reflexivity.
Defined.

(** *** A value matches itself *)

Lemma startswith_refl s : startswith s s = true.
Proof.
  induction s as [|c r IH]; simpl; [reflexivity|].
  rewrite Ascii.eqb_refl, IH. reflexivity.
Qed.

Lemma contains_refl s : contains s s = true.
Proof. destruct s; simpl; [reflexivity|]. rewrite Ascii.eqb_refl, startswith_refl. reflexivity. Qed.

Lemma token_matches_refl s :
  is_empty (strip s) = false -> token_matches s s = true.
Proof.
  intros He. unfold token_matches. rewrite He. simpl.
  destruct (isdigit (strip s)); simpl; [|apply contains_refl].
  destruct (int (strip s)); [apply Z.eqb_refl | apply contains_refl].
Qed.

(** X8. A single-valued field matches its own value: for every text
    that is not blank and holds no separator, the field holding it
    matches the snapshot value equal to it, whatever its characters (a
    month name, a number, a word with accents). *)
Theorem single_value_matches_itself (s : string) :
  strip s <> EmptyString -> has_delimiter s = false ->
  _matches (CText s) s = true.
Proof.
  intros Hne Hd. apply is_empty_false in Hne.
  rewrite (matches_by_normal_form (CText s) (CText (strip s)))
    by (rewrite !normalize_text, strip_idem; reflexivity).
  destruct (String.eqb (lower (strip s)) "todos") eqn:Hw.
  - unfold _matches. rewrite normalize_text, strip_idem, Hne, Hw. reflexivity.
  - rewrite matches_single_token;
      [| apply strip_idem | exact Hne | apply has_delimiter_strip, Hd | exact Hw].
    rewrite token_matches_strip. apply token_matches_refl, Hne.
Qed.

Lemma single_value_matches_itself_witness :
  _matches (CText "Dezembro") "Dezembro" = true
  /\ _matches (CText " sexta-feira ") " sexta-feira " = true.
Proof.
  split.
  - apply (single_value_matches_itself "Dezembro"); [discriminate | reflexivity].
  - apply (single_value_matches_itself " sexta-feira "); [vm_compute; discriminate | reflexivity].
Defined.

(** *** A job for one minute of the day *)

Lemma matches_numeric_field t cur a b :
  numeric t = true -> numeric cur = true ->
  int t = Some a -> int cur = Some b ->
  _matches (CText t) cur = (a =? b).
Proof.
  intros Ht Hc Ha Hb. rewrite matches_single_token.
  - apply (token_matches_numeric _ _ _ _ Ht Hc Ha Hb).
  - apply numeric_strip, Ht.
  - apply (numeric_parts _ Ht).
  - apply numeric_no_delimiter, Ht.
  - apply numeric_not_wildcard, Ht.
Qed.

(** X9. A row whose hour and minute fields hold one number each and whose
    five other schedule fields hold the wildcard is due exactly at the
    snapshots whose hour and minute denote these numbers: a job set for
    07:05 is due at 07:05 of every day and at no other minute.  The
    numbers are those [int] converts, of at most 4300 digits each. *)
Theorem hour_and_minute_schedule_is_due_at_that_minute
    (row : gmap string cell) (now : NowParts) (hora minuto : string)
    (h m nh nm : Z) :
  (forall key, In key ["ano"; "meses_do_ano"; "semanas_do_mes"; "dias_da_semana"; "dia"] ->
     exists s, row !! key = Some (CText s) /\ lower s = "todos") ->
  row !! "hora" = Some (CText hora) ->
  row !! "minuto" = Some (CText minuto) ->
  numeric hora = true -> int hora = Some h ->
  numeric minuto = true -> int minuto = Some m ->
  numeric (hour now) = true -> int (hour now) = Some nh ->
  numeric (minute now) = true -> int (minute now) = Some nm ->
  should_enqueue row now = (h =? nh) && (m =? nm).
Proof.
  intros Hw Hh Hm Nh Ih Nm Im Nnh Inh Nnm Inm.
  unfold should_enqueue, row_get. rewrite Hh, Hm.
  rewrite (matches_numeric_field _ _ _ _ Nh Nnh Ih Inh).
  rewrite (matches_numeric_field _ _ _ _ Nm Nnm Im Inm).
  repeat match goal with
  | |- context [row !! ?k] =>
      let s := fresh "s" in let Hk := fresh "Hk" in let Hs := fresh "Hs" in
      destruct (Hw k) as (s & Hk & Hs); [simpl; tauto |];
      rewrite Hk, (matches_wildcard _ _ Hs)
  end.
  reflexivity.
Qed.

Lemma hour_and_minute_schedule_is_due_at_that_minute_witness :
  let row := <["hora" := CText "07"]> (<["minuto" := CText "5"]> all_todos_row) in
  should_enqueue row now_0705 = true /\ should_enqueue row now_0706 = false.
Proof.
  assert (Hw : forall key,
            In key ["ano"; "meses_do_ano"; "semanas_do_mes"; "dias_da_semana"; "dia"] ->
            exists s, (<["hora" := CText "07"]> (<["minuto" := CText "5"]> all_todos_row))
                        !! key = Some (CText s) /\ lower s = "todos").
  { intros key Hk. simpl in Hk.
    destruct Hk as [<-|[<-|[<-|[<-|[<-|[]]]]]]; exists "Todos"; split; reflexivity. }
  split.
  - rewrite (hour_and_minute_schedule_is_due_at_that_minute _ now_0705 "07" "5" 7 5 7 5 Hw);
      reflexivity.
  - rewrite (hour_and_minute_schedule_is_due_at_that_minute _ now_0706 "07" "5" 7 5 7 6 Hw);
      reflexivity.
Defined.

End MatcherFacts.

(** ** The time parts of the clock *)

Module ClockFacts.
Import PyStr PyStrFacts Eff Util Vocabulary UtilFacts Terms Clock.

(** X10. For a clock whose day of the month reads as a number from 1 to
    31, [get_now_parts] returns the renderings of the clock unchanged and a
    week of the month from 1 to 5, computed as (day - 1) // 7 + 1: the
    weeks are the days 1-7, 8-14, 15-21, 22-28 and 29-31.  The locale flag
    is set afterwards. *)
Theorem get_now_parts_week_of_month
    (strftime : string -> string) (flag : bool) (dia : Z) :
  int (strftime "%d") = Some dia -> 1 <= dia <= 31 ->
  exists parts,
    get_now_parts strftime flag = (Ok parts, true)
    /\ year parts = strftime "%Y" /\ month_name parts = strftime "%B"
    /\ weekday_name parts = strftime "%A" /\ day parts = strftime "%d"
    /\ hour parts = strftime "%H" /\ minute parts = strftime "%M"
    /\ week_of_month parts = of_Z ((dia - 1) / 7 + 1)
    /\ In (week_of_month parts) ["1"; "2"; "3"; "4"; "5"]
    /\ (week_of_month parts = "1" <-> dia <= 7)
    /\ (week_of_month parts = "5" <-> 29 <= dia).
Proof.
  intros Hd Hr. unfold get_now_parts, bind, modify, ret. simpl. rewrite Hd.
  eexists. split; [reflexivity|]. simpl. unfold semana_do_mes.
  repeat (split; [reflexivity|]).
  assert (Hcases : dia = 1 \/ dia = 2 \/ dia = 3 \/ dia = 4 \/ dia = 5 \/ dia = 6
            \/ dia = 7 \/ dia = 8 \/ dia = 9 \/ dia = 10 \/ dia = 11 \/ dia = 12
            \/ dia = 13 \/ dia = 14 \/ dia = 15 \/ dia = 16 \/ dia = 17 \/ dia = 18
            \/ dia = 19 \/ dia = 20 \/ dia = 21 \/ dia = 22 \/ dia = 23 \/ dia = 24
            \/ dia = 25 \/ dia = 26 \/ dia = 27 \/ dia = 28 \/ dia = 29 \/ dia = 30
            \/ dia = 31) by lia.
  repeat (destruct Hcases as [->|Hcases]); try subst dia;
    match goal with |- context [of_Z ?e] =>
      let v := eval vm_compute in (of_Z e) in change (of_Z e) with v end;
    (split; [simpl; tauto|]); split; split; intros H;
    first [lia | discriminate H | reflexivity].
Qed.

Lemma get_now_parts_week_of_month_witness :
  exists parts,
    get_now_parts (fun f => if String.eqb f "%d" then "26" else f) false = (Ok parts, true)
    /\ week_of_month parts = "4" /\ day parts = "26".
Proof.
  destruct (get_now_parts_week_of_month
              (fun f => if String.eqb f "%d" then "26" else f) false 26)
    as (parts & E & _ & _ & _ & Hday & _ & _ & Hweek & _); [reflexivity | lia |].
  exists parts. split; [exact E|]. split; [rewrite Hweek; reflexivity | exact Hday].
Defined.

End ClockFacts.

(** ** More on the scheduler *)

Module PollFacts.
Import PyStr Eff Models Util DB Orchestrator Vocabulary Terms.

Lemma due_loop_spec now procs : forall due,
  due_loop now procs due
  = (due ++ map item_of_process (List.filter (is_due now) procs))%list.
Proof.
  induction procs as [|proc procs IH]; intros due; simpl.
  - rewrite app_nil_r. reflexivity.
  - rewrite IH. unfold is_due at 2.
    destruct (should_enqueue (process_to_schedule_row proc) now); simpl.
    + rewrite <- app_assoc. reflexivity.
    + reflexivity.
Qed.

Lemma filter_filter_and {A} (p q : A -> bool) (l : list A) :
  List.filter q (List.filter p l) = List.filter (fun x => p x && q x) l.
Proof.
  induction l as [|x l IH]; simpl; [reflexivity|].
  destruct (p x); simpl; [destruct (q x); simpl; rewrite IH; reflexivity | exact IH].
Qed.

(** X11. [poll_due_processes] returns one item per enabled process whose
    schedule row is due at the snapshot, in the order of the listing; a
    disabled process or one that is not due yields no item.  The database
    is only read: its processes and logs are as before, also when the
    listing fails, in which case the database error is raised. *)
Theorem poll_returns_the_enabled_due_processes
    (now : NowParts) (d : OrchestratorDB) :
  processes (snd (poll_due_processes now d)) = processes d
  /\ logs (snd (poll_due_processes now d)) = logs d
  /\ fst (poll_due_processes now d)
     = match faults d with
       | Some msg :: _ => Raise (DBError msg)
       | _ => Ok (map item_of_process
                    (List.filter (fun proc => enabled proc && is_due now proc)
                       (processes d)))
       end.
Proof.
  unfold poll_due_processes, list_processes, bind, connect, gets, ret.
  destruct (faults d) as [|[msg|] tape]; simpl;
    rewrite ?due_loop_spec, ?filter_filter_and; simpl; auto.
Qed.

End PollFacts.

Module GuardMoreFacts.
Import PyStr PyStrFacts Eff Util Orchestrator Vocabulary GuardFacts Terms.

(** One call of [allow]: its answer and the keys held afterwards. *)
Lemma allow_step item now g :
  exists g',
    allow item now g
      = (Ok (negb (bool_decide (job_key item ∈ seen_at g now))), g')
    /\ _last_minute_key g' = Some (minute_key now)
    /\ seen_at g' now = {[job_key item]} ∪ seen_at g now.
Proof.
  rewrite allow_unfold. cbv zeta. unfold seen_at.
  destruct (bool_decide_reflect (Some (minute_key now) = _last_minute_key g)) as [E|E].
  - destruct (bool_decide_reflect (job_key item ∈ _seen g)) as [Hin|Hin]; simpl.
    + exists g. split; [reflexivity|]. split; [congruence|].
      rewrite bool_decide_eq_true_2 by exact E. set_solver.
    + eexists. split; [reflexivity|]. simpl. split; [congruence|].
      rewrite bool_decide_eq_true_2 by exact E. reflexivity.
  - destruct (bool_decide_reflect (job_key item ∈ (∅ : gset string))) as [Hin|Hin];
      [set_solver|]. simpl.
    eexists. split; [reflexivity|]. simpl. split; [reflexivity|].
    rewrite bool_decide_eq_true_2 by reflexivity. reflexivity.
Qed.

Lemma accepted_keys now due : forall g,
  NoDup (map job_key (accepted now due g))
  /\ (forall key, key ∈ map job_key (accepted now due g)
        <-> key ∈ map job_key due /\ key ∉ seen_at g now)
  /\ sublist (accepted now due g) due.
Proof.
  induction due as [|item due IH]; intros g; simpl.
  - split; [constructor|]. split; [|constructor]. intros key. set_solver.
  - destruct (allow_step item now g) as (g' & Ha & _ & Hs). rewrite Ha.
    destruct (IH g') as (Hnd & Hkeys & Hsub).
    destruct (bool_decide_reflect (job_key item ∈ seen_at g now)) as [Hin|Hin]; simpl.
    + split; [exact Hnd|]. split; [|apply sublist_cons, Hsub].
      intros key. rewrite Hkeys, Hs. set_solver.
    + split; [|split; [|apply sublist_skip, Hsub]].
      * constructor; [|exact Hnd]. rewrite Hkeys, Hs. set_solver.
      * intros key. rewrite elem_of_cons, Hkeys, Hs, elem_of_cons.
        destruct (decide (key = job_key item)) as [->|Hne]; set_solver.
Qed.

(** X12. Of the due items offered to the guard in one tick, the accepted
    ones are a sub-list of the due list with pairwise different job keys,
    and they are exactly the items whose key the guard did not already
    hold for that minute: every such key is accepted once, at its first
    occurrence, and no other. *)
Theorem guard_accepts_each_new_key_once
    (now : NowParts) (due : list Item) (g : DuplicateGuard) :
  NoDup (map job_key (accepted now due g))
  /\ (forall key, key ∈ map job_key (accepted now due g)
        <-> key ∈ map job_key due /\ key ∉ seen_at g now)
  /\ sublist (accepted now due g) due.
Proof. apply accepted_keys. Qed.

Lemma job_key_mk_item p t c : job_key (mk_item p t c) = p ++ "|" ++ t ++ "|" ++ c.
Proof. reflexivity. Qed.

Lemma append_cons x (a b : string) : String x a ++ b = String x (a ++ b).
Proof. reflexivity. Qed.

Lemma append_assoc (a b c : string) : (a ++ b) ++ c = a ++ b ++ c.
Proof.
  induction a as [|x a IH]; [reflexivity|]. rewrite !append_cons, IH. reflexivity.
Qed.

Lemma length_append (a b : string) :
  String.length (a ++ b) = (String.length a + String.length b)%nat.
Proof.
  induction a as [|x a IH]; [reflexivity|]. rewrite append_cons. simpl.
  rewrite IH. reflexivity.
Qed.

Lemma append_longer (x t : string) : t <> x ++ "|" ++ t.
Proof.
  intros E. apply (f_equal String.length) in E.
  rewrite !length_append in E. simpl in E. lia.
Qed.

(** X13. The job key is the plain concatenation of name, tool and path
    with pipes between them, so two different jobs whose fields differ
    only by the place of a pipe have the same key and the guard takes them
    for one job: after the first, the second is rejected in the same
    minute. *)
Theorem jobs_with_colliding_keys_are_taken_for_one
    (g : DuplicateGuard) (now : NowParts) (name x tool path : string) :
  let first := mk_item (name ++ "|" ++ x) tool path in
  let second := mk_item name (x ++ "|" ++ tool) path in
  first <> second
  /\ job_key first = job_key second
  /\ fst (allow second now (snd (allow first now g))) = Ok false.
Proof.
  intros first second.
  assert (Hk : job_key first = job_key second).
  { unfold first, second. rewrite !job_key_mk_item. rewrite !append_assoc. reflexivity. }
  split; [|split; [exact Hk|]].
  - intros E. apply (f_equal (fun it : Item => it !! "ferramenta")) in E.
    assert (E' : Some tool = Some (x ++ "|" ++ tool)) by exact E.
    injection E' as E'. exact (append_longer x tool E').
  - rewrite (allow_held second now); [reflexivity|].
    rewrite <- Hk. apply allow_holds.
Qed.

End GuardMoreFacts.

Module TickFacts.
Import PyStr Eff Models Util DB Orchestrator Executor Controller Vocabulary.
Import GuardFacts SchedulerFacts Terms GuardMoreFacts.

Lemma no_fault_tail tape : no_fault tape -> no_fault (tail tape).
Proof. unfold no_fault. intros H. destruct H; simpl; [constructor | assumption]. Qed.

Lemma no_fault_head tape :
  no_fault tape -> match tape with [] => True | o :: _ => o = None end.
Proof. unfold no_fault. intros H. destruct H; [exact I | assumption]. Qed.

(** The body of the loop for an accepted item, with and without the log
    row. *)
Lemma tick_item_logged now item s g' :
  allow item now (_guard s) = (Ok true, g') ->
  log_to_db s = true ->
  no_fault (faults (db s)) ->
  exists s', tick_item now item s = (Ok tt, s')
    /\ _guard s' = g' /\ no_fault (faults (db s'))
    /\ processes (db s') = processes (db s)
    /\ logs (db s') = (logs (db s) ++ [enqueue_entry item])%list
    /\ snapshot (out_queue s') = (snapshot (out_queue s) ++ [item])%list
    /\ log_to_db s' = true.
Proof.
  intros Ha Hlog Hf.
  unfold tick_item, bind, on_guard, logging_info, modify, gets, on_db, on_queue.
  rewrite Ha. simpl. rewrite Hlog.
  unfold append_log, bind, connect, modify. simpl. unfold no_fault in *.
  destruct (faults (db s)) as [|o tape] eqn:Ef.
  - simpl. eexists. split; [reflexivity|]. simpl. rewrite Ef.
    repeat split; try reflexivity. constructor.
  - apply Forall_cons_1 in Hf as [-> Hf]. simpl.
    eexists. split; [reflexivity|]. simpl. repeat split; try reflexivity. exact Hf.
Qed.

Lemma tick_item_quiet now item s g' :
  allow item now (_guard s) = (Ok true, g') ->
  log_to_db s = false ->
  exists s', tick_item now item s = (Ok tt, s')
    /\ _guard s' = g' /\ db s' = db s
    /\ snapshot (out_queue s') = (snapshot (out_queue s) ++ [item])%list
    /\ log_to_db s' = false.
Proof.
  intros Ha Hlog.
  unfold tick_item, bind, on_guard, logging_info, modify, gets, on_db, on_queue.
  rewrite Ha. simpl. rewrite Hlog. simpl.
  eexists. split; [reflexivity|]. simpl. repeat split; try reflexivity.
Qed.

Lemma tick_items_logged now due : forall s,
  log_to_db s = true -> no_fault (faults (db s)) ->
  exists s', for_each due (tick_item now) s = (Ok tt, s')
    /\ snapshot (out_queue s')
       = (snapshot (out_queue s) ++ accepted now due (_guard s))%list
    /\ logs (db s')
       = (logs (db s) ++ map enqueue_entry (accepted now due (_guard s)))%list
    /\ processes (db s') = processes (db s)
    /\ no_fault (faults (db s'))
    /\ log_to_db s' = true
    /\ _guard s' = run_allows (calls_at now due) (_guard s).
Proof.
  induction due as [|item due IH]; intros s Hlog Hf; simpl.
  - exists s. rewrite !app_nil_r. repeat split; auto.
  - destruct (allow_returns item now (_guard s)) as (b & g' & Ha).
    rewrite Ha. unfold bind. destruct b.
    + destruct (tick_item_logged now item s g' Ha Hlog Hf)
        as (s1 & -> & Hg & Hf1 & Hp & Hl & Hq & Hlog1).
      destruct (IH s1 Hlog1 Hf1) as (s' & -> & Hq' & Hl' & Hp' & Hf' & Hlog' & Hg').
      exists s'. split; [reflexivity|].
      rewrite Hq', Hq, Hl', Hl, Hp', Hp, Hg', Hg. simpl. rewrite <- !app_assoc.
      repeat split; auto.
    + destruct (tick_item_rejected _ _ _ _ Ha) as (s1 & -> & Hg & Hdb & Hq & Hlog1).
      destruct (IH s1) as (s' & -> & Hq' & Hl' & Hp' & Hf' & Hlog' & Hg').
      { rewrite Hlog1. exact Hlog. }
      { rewrite Hdb. exact Hf. }
      exists s'. split; [reflexivity|].
      rewrite Hq', Hq, Hl', Hp', Hg', Hg, Hdb. repeat split; auto.
Qed.

Lemma tick_items_quiet now due : forall s,
  log_to_db s = false ->
  exists s', for_each due (tick_item now) s = (Ok tt, s')
    /\ snapshot (out_queue s')
       = (snapshot (out_queue s) ++ accepted now due (_guard s))%list
    /\ db s' = db s
    /\ log_to_db s' = false
    /\ _guard s' = run_allows (calls_at now due) (_guard s).
Proof.
  induction due as [|item due IH]; intros s Hlog; simpl.
  - exists s. rewrite !app_nil_r. repeat split; auto.
  - destruct (allow_returns item now (_guard s)) as (b & g' & Ha).
    rewrite Ha. unfold bind. destruct b.
    + destruct (tick_item_quiet now item s g' Ha Hlog) as (s1 & -> & Hg & Hdb & Hq & Hlog1).
      destruct (IH s1 Hlog1) as (s' & -> & Hq' & Hdb' & Hlog' & Hg').
      exists s'. split; [reflexivity|].
      rewrite Hq', Hq, Hdb', Hdb, Hg', Hg. simpl. rewrite <- !app_assoc.
      repeat split; auto.
    + destruct (tick_item_rejected _ _ _ _ Ha) as (s1 & -> & Hg & Hdb & Hq & Hlog1).
      destruct (IH s1) as (s' & -> & Hq' & Hdb' & Hlog' & Hg').
      { rewrite Hlog1. exact Hlog. }
      exists s'. split; [reflexivity|].
      rewrite Hq', Hq, Hdb', Hdb, Hg', Hg. repeat split; auto.
Qed.

(** The listing when it is not refused. *)
Lemma poll_listing_passes now s :
  match faults (db s) with Some _ :: _ => False | _ => True end ->
  exists s0, on_db (poll_due_processes now) s = (Ok (due_now now (db s)), s0)
    /\ faults (db s0) = tail (faults (db s))
    /\ processes (db s0) = processes (db s)
    /\ logs (db s0) = logs (db s)
    /\ _guard s0 = _guard s
    /\ out_queue s0 = out_queue s /\ log_to_db s0 = log_to_db s.
Proof.
  intros Hf. unfold on_db, poll_due_processes, list_processes, bind, connect, gets, ret.
  destruct (faults (db s)) as [|[msg|] tape] eqn:Ef; [| destruct Hf |]; simpl;
    (eexists; split; [reflexivity|]); simpl; rewrite ?Ef; repeat split; reflexivity.
Qed.

Lemma no_fault_passes tape :
  no_fault tape -> match tape with Some _ :: _ => False | _ => True end.
Proof. unfold no_fault. intros H. destruct H as [|o tape -> _]; exact I. Qed.

(** X14. A tick whose database operations all succeed pushes every due
    item the guard accepts, in the order of the listing, after the items
    already queued, and writes one log row per pushed item, in the same
    order; the processes of the database are not touched. *)
Theorem tick_pushes_and_logs_the_accepted_items
    (now : NowParts) (s : DBBackedScheduler) :
  log_to_db s = true -> no_fault (faults (db s)) ->
  exists s',
    tick_once now s = (Ok tt, s')
    /\ snapshot (out_queue s')
       = (snapshot (out_queue s)
            ++ accepted now (due_now now (db s)) (_guard s))%list
    /\ logs (db s')
       = (logs (db s)
            ++ map enqueue_entry (accepted now (due_now now (db s)) (_guard s)))%list
    /\ processes (db s') = processes (db s).
Proof.
  intros Hlog Hf.
  destruct (poll_listing_passes now s (no_fault_passes _ Hf))
    as (s0 & Hpoll & Hf0 & Hp0 & Hl0 & Hg0 & Hq0 & Hlog0).
  destruct (tick_items_logged now (due_now now (db s)) s0)
    as (s' & Hrun & Hq & Hl & Hp & _).
  { rewrite Hlog0. exact Hlog. }
  { rewrite Hf0. apply no_fault_tail, Hf. }
  exists s'. split; [unfold tick_once, bind; rewrite Hpoll; exact Hrun|].
  rewrite Hq, Hl, Hp, Hq0, Hl0, Hp0, Hg0. auto.
Qed.

Lemma tick_pushes_and_logs_the_accepted_items_witness :
  exists s',
    tick_once now_0705
      (new_scheduler (mkDB [always_due "a"; always_due "a"; always_due "b"] [] [])
         new_queue 60 true) = (Ok tt, s')
    /\ snapshot (out_queue s') = [item_of "a"; item_of "b"]
    /\ map message (logs (db s')) = ["Enfileirado: a (other)"; "Enfileirado: b (other)"].
Proof.
  destruct (tick_pushes_and_logs_the_accepted_items now_0705
              (new_scheduler (mkDB [always_due "a"; always_due "a"; always_due "b"] [] [])
                 new_queue 60 true))
    as (s' & Ht & Hq & Hl & _); [reflexivity | constructor |].
  exists s'. split; [exact Ht|]. rewrite Hq, Hl. split; vm_compute; reflexivity.
Defined.

(** After the calls of a tick the guard holds the key of every due item. *)
Lemma run_allows_seen now due : forall g,
  seen_at (run_allows (calls_at now due) g) now
  = list_to_set (map job_key due) ∪ seen_at g now.
Proof.
  induction due as [|item due IH]; intros g; simpl.
  - set_solver.
  - destruct (allow_step item now g) as (g' & Ha & _ & Hs).
    rewrite Ha. simpl. rewrite IH, Hs. set_solver.
Qed.

Lemma accepted_none now due g :
  (forall key, key ∈ map job_key due -> key ∈ seen_at g now) ->
  accepted now due g = [].
Proof.
  intros Hall. destruct (accepted_keys now due g) as (_ & Hkeys & _).
  destruct (accepted now due g) as [|item rest]; [reflexivity|].
  exfalso. destruct (Hkeys (job_key item)) as [H _].
  destruct H as [Hin Hnot]; [simpl; set_solver|]. apply Hnot, Hall, Hin.
Qed.

(** X15. Firing is idempotent inside a minute: when all database
    operations succeed, a second tick at the same snapshot pushes nothing
    and writes no log row, whatever the first tick pushed. *)
Theorem second_tick_of_the_minute_pushes_nothing
    (now : NowParts) (s : DBBackedScheduler) :
  log_to_db s = true -> no_fault (faults (db s)) ->
  exists s1 s2,
    tick_once now s = (Ok tt, s1)
    /\ tick_once now s1 = (Ok tt, s2)
    /\ snapshot (out_queue s2) = snapshot (out_queue s1)
    /\ logs (db s2) = logs (db s1).
Proof.
  intros Hlog Hf.
  destruct (poll_listing_passes now s (no_fault_passes _ Hf))
    as (s0 & Hpoll & Hf0 & Hp0 & Hl0 & Hg0 & Hq0 & Hlog0).
  destruct (tick_items_logged now (due_now now (db s)) s0)
    as (s1 & Hrun & Hq & Hl & Hp & Hf1 & Hlog1 & Hg1).
  { rewrite Hlog0. exact Hlog. }
  { rewrite Hf0. apply no_fault_tail, Hf. }
  assert (Ht1 : tick_once now s = (Ok tt, s1)).
  { unfold tick_once, bind. rewrite Hpoll. exact Hrun. }
  assert (Hdue : due_now now (db s1) = due_now now (db s)).
  { unfold due_now. rewrite Hp, Hp0. reflexivity. }
  destruct (poll_listing_passes now s1 (no_fault_passes _ Hf1))
    as (t0 & Hpoll' & Hf0' & Hp0' & Hl0' & Hg0' & Hq0' & Hlog0').
  destruct (tick_items_logged now (due_now now (db s1)) t0)
    as (s2 & Hrun' & Hq' & Hl' & _).
  { rewrite Hlog0'. exact Hlog1. }
  { rewrite Hf0'. apply no_fault_tail, Hf1. }
  exists s1, s2. split; [exact Ht1|].
  split; [unfold tick_once, bind; rewrite Hpoll'; exact Hrun'|].
  assert (Hnone : accepted now (due_now now (db s1)) (_guard t0) = []).
  { apply accepted_none. intros key Hkey.
    rewrite Hdue in Hkey. rewrite Hg0', Hg1, run_allows_seen.
    apply elem_of_union_l, elem_of_list_to_set, Hkey. }
  rewrite Hq', Hl', Hnone, Hq0', Hl0'. simpl. rewrite !app_nil_r. auto.
Qed.

Lemma second_tick_of_the_minute_pushes_nothing_witness :
  exists s1 s2,
    tick_once now_0705
      (new_scheduler (mkDB [always_due "a"; always_due "b"] [] []) new_queue 60 true)
      = (Ok tt, s1)
    /\ tick_once now_0705 s1 = (Ok tt, s2)
    /\ snapshot (out_queue s2) = snapshot (out_queue s1)
    /\ logs (db s2) = logs (db s1).
Proof.
  apply (second_tick_of_the_minute_pushes_nothing now_0705
           (new_scheduler (mkDB [always_due "a"; always_due "b"] [] []) new_queue 60 true));
    [reflexivity | constructor].
Defined.

(** X16. With the logging to the database switched off, a tick only
    reads the database: once the listing has succeeded it cannot fail,
    whatever the coming outcomes of the database are, it pushes every
    accepted item and it leaves the logs as they are. *)
Theorem tick_without_db_log_only_reads_the_database
    (now : NowParts) (s : DBBackedScheduler) :
  log_to_db s = false ->
  match faults (db s) with Some _ :: _ => False | _ => True end ->
  exists s',
    tick_once now s = (Ok tt, s')
    /\ snapshot (out_queue s')
       = (snapshot (out_queue s)
            ++ accepted now (due_now now (db s)) (_guard s))%list
    /\ logs (db s') = logs (db s)
    /\ faults (db s') = tail (faults (db s)).
Proof.
  intros Hlog Hf.
  destruct (poll_listing_passes now s Hf)
    as (s0 & Hpoll & Hf0 & Hp0 & Hl0 & Hg0 & Hq0 & Hlog0).
  destruct (tick_items_quiet now (due_now now (db s)) s0)
    as (s' & Hrun & Hq & Hdb & _).
  { rewrite Hlog0. exact Hlog. }
  exists s'. split; [unfold tick_once, bind; rewrite Hpoll; exact Hrun|].
  rewrite Hq, Hdb, Hq0, Hg0, Hl0, Hf0. auto.
Qed.

Lemma tick_without_db_log_only_reads_the_database_witness :
  exists s',
    tick_once now_0705 (new_scheduler db_failing_second_log new_queue 60 false)
      = (Ok tt, s')
    /\ snapshot (out_queue s') = [item_of "a"; item_of "b"; item_of "c"]
    /\ logs (db s') = [].
Proof.
  destruct (tick_without_db_log_only_reads_the_database now_0705
              (new_scheduler db_failing_second_log new_queue 60 false))
    as (s' & Ht & Hq & Hl & _); [reflexivity | exact I |].
  exists s'. split; [exact Ht|]. rewrite Hq, Hl. split; vm_compute; reflexivity.
Defined.

(** The logging of the controller swallows the failures of the database. *)
Lemma append_log_outcome msg stream c :
  exists c',
    _append_log msg stream c = (Ok tt, c')
    /\ emitted c' = (emitted c ++ [log_text msg])%list
    /\ out_queue (_scheduler c') = out_queue (_scheduler c)
    /\ _guard (_scheduler c') = _guard (_scheduler c)
    /\ processes (db (_scheduler c')) = processes (db (_scheduler c))
    /\ _process c' = _process c
    /\ _running_item c' = _running_item c
    /\ _running_scheduler c' = _running_scheduler c
    /\ _timer_active c' = _timer_active c
    /\ faults (db (_scheduler c')) = tail (faults (db (_scheduler c)))
    /\ logs (db (_scheduler c'))
       = match faults (db (_scheduler c)) with
         | Some _ :: _ => logs (db (_scheduler c))
         | _ => (logs (db (_scheduler c)) ++ [mkLogEntry None stream msg])%list
         end.
Proof.
  unfold _append_log, bind, try_except, on_scheduler, on_db, append_log, bind,
    connect, modify, emit, ret.
  destruct (faults (db (_scheduler c))) as [|[m|] tape] eqn:Ef; simpl;
    (eexists; split; [reflexivity|]); simpl; rewrite ?Ef; repeat split; reflexivity.
Qed.

(** X17. When the listing of the processes is refused, the tick raises
    the database error before it has looked at any job: the queue, the
    duplicate guard and the logs are as before.  Inside the operating
    window the tick handler of the controller catches this error, logs it
    and goes on with the publication of the queue and the start of the
    next queued job. *)
Theorem refused_listing_leaves_queue_and_guard
    (now : NowParts) (s : DBBackedScheduler) (msg : string)
    (tape : list (option string)) :
  faults (db s) = Some msg :: tape ->
  exists s',
    tick_once now s = (Raise (DBError msg), s')
    /\ out_queue s' = out_queue s
    /\ _guard s' = _guard s
    /\ logs (db s') = logs (db s)
    /\ faults (db s') = tape
    /\ forall (h : Host) (hour : Z) (c : OrchestratorController),
         7 <= hour < 18 -> _scheduler c = s ->
         _on_scheduler_tick h hour now c
         = (_emit_queue_changed ;;; _drain_queue_if_idle h)
             (snd (_append_log ("Erro no scheduler: " ++ msg) "log"
                     (with_scheduler c s'))).
Proof.
  intros Hf.
  assert (Htick : exists s', tick_once now s = (Raise (DBError msg), s')
            /\ out_queue s' = out_queue s /\ _guard s' = _guard s
            /\ logs (db s') = logs (db s) /\ faults (db s') = tape).
  { unfold tick_once, bind, on_db, poll_due_processes, list_processes, bind, connect.
    rewrite Hf. simpl. eexists. split; [reflexivity|]. simpl. auto. }
  destruct Htick as (s' & Ht & Hq & Hg & Hl & Hf').
  exists s'. repeat (split; [assumption|]).
  intros h hour c Hwin <-. unfold _on_scheduler_tick.
  apply in_window_spec in Hwin. unfold in_window in Hwin. rewrite Hwin. simpl.
  unfold bind at 1. unfold try_except at 1. unfold on_scheduler at 1.
  rewrite Ht. simpl. fold (with_scheduler c s').
  destruct (append_log_outcome ("Erro no scheduler: " ++ msg) "log" (with_scheduler c s'))
    as (c1 & -> & _). reflexivity.
Qed.

Lemma refused_listing_leaves_queue_and_guard_witness :
  exists s',
    tick_once now_0705
      (new_scheduler (mkDB [always_due "a"] [] [Some "locked"]) new_queue 60 true)
      = (Raise (DBError "locked"), s')
    /\ out_queue s' = new_queue /\ _guard s' = new_guard.
Proof.
  destruct (refused_listing_leaves_queue_and_guard now_0705
              (new_scheduler (mkDB [always_due "a"] [] [Some "locked"]) new_queue 60 true)
              "locked" [] eq_refl)
    as (s' & Ht & Hq & Hg & _).
  exists s'. auto.
Defined.

End TickFacts.

(** ** item_as_dict *)

Module ItemDictFacts.
Import ItemDict.

(** X18. [item_as_dict] keeps the keys of the item and its values other
    than None, puts the empty string where the value is None, so that no
    value of the result is None, and applying it twice is the same as
    applying it once. *)
Theorem item_as_dict_replaces_none (item : gmap string (option string)) :
  dom (item_as_dict item) = dom item
  /\ (forall key, item_as_dict item !! key <> Some None)
  /\ (forall key x, item !! key = Some (Some x) ->
        item_as_dict item !! key = Some (Some x))
  /\ (forall key, item !! key = Some None ->
        item_as_dict item !! key = Some (Some EmptyString))
  /\ (forall key, item !! key = None -> item_as_dict item !! key = None)
  /\ item_as_dict (item_as_dict item) = item_as_dict item.
Proof.
  unfold item_as_dict. split; [apply dom_fmap_L|].
  split; [|split; [|split; [|split]]].
  - intros key. rewrite lookup_fmap. destruct (item !! key) as [[x|]|]; simpl; congruence.
  - intros key x H. rewrite lookup_fmap, H. reflexivity.
  - intros key H. rewrite lookup_fmap, H. reflexivity.
  - intros key H. rewrite lookup_fmap, H. reflexivity.
  - apply map_eq. intros key. rewrite !lookup_fmap.
    destruct (item !! key) as [[x|]|]; reflexivity.
Qed.

Lemma item_as_dict_replaces_none_witness :
  item_as_dict (<["caminho" := None]> (<["processo" := Some "Proc"]> ∅)) !! "caminho"
  = Some (Some EmptyString)
  /\ item_as_dict (<["caminho" := None]> (<["processo" := Some "Proc"]> ∅)) !! "processo"
     = Some (Some "Proc").
Proof.
  destruct (item_as_dict_replaces_none
              (<["caminho" := None]> (<["processo" := Some "Proc"]> ∅)))
    as (_ & _ & Hsome & Hnone & _).
  split; [apply Hnone | apply Hsome]; reflexivity.
Defined.

End ItemDictFacts.

(** ** More on the command builder *)

Module BuilderFacts.
Import PyStr PyStrFacts Eff Orchestrator Executor Vocabulary ExecutorFacts Terms.
Import GuardMoreFacts.

Lemma build_unfold h item :
  build_subprocess_command h item =
    if is_empty (field item "ferramenta") || is_empty (field item "caminho")
    then Raise (ValueError msg_missing)
    else if String.eqb (lower (field item "ferramenta")) "uipath"
    then Ok (build_uipath_command (field item "caminho") (field item "processo"))
    else
      match _split_command_windows h (field item "caminho") with
      | [] => Raise (ValueError msg_empty_command)
      | entry :: rest =>
          let ext := lower (snd (splitext entry)) in
          if one_of ext [".py"; ".pyw"] then Ok (sys_executable h :: entry :: rest)
          else if one_of ext [".bat"; ".cmd"] then Ok ("cmd.exe" :: "/c" :: entry :: rest)
          else if String.eqb ext ".ps1" then
            Ok ("powershell" :: "-NoProfile" :: "-ExecutionPolicy" :: "Bypass"
                  :: "-File" :: entry :: rest)
          else if String.eqb ext ".lnk" then
            Ok ["powershell"; "-NoProfile"; "-ExecutionPolicy"; "Bypass"; "-Command";
                "Start-Process -FilePath " ++ _ps_quote entry ++ " -ArgumentList "
                  ++ match rest with
                     | [] => "@()"
                     | _ :: _ => "@(" ++ join "," (map _ps_quote rest) ++ ")"
                     end ++ " -Wait"]
          else if path_exists h entry && path_isfile h entry
                  && negb (one_of ext [".exe"; ".com"])
          then Raise (ValueError (msg_not_executable entry ext))
          else Ok (entry :: rest)
      end.
Proof. reflexivity. Qed.

(** X19. The builder never returns an empty command, and the only
    exception it raises is [ValueError].  It raises the error for
    incomplete items exactly when the tool or the path is empty once
    trimmed (a missing key counts as empty); a command it returns comes
    from an item with a tool and a path. *)
Theorem builder_validates_and_never_returns_empty (h : Host) (item : Item) :
  (forall cmd, build_subprocess_command h item = Ok cmd ->
     cmd <> [] /\ field item "ferramenta" <> EmptyString
     /\ field item "caminho" <> EmptyString)
  /\ (forall e, build_subprocess_command h item = Raise e ->
        exists msg, e = ValueError msg)
  /\ (build_subprocess_command h item = Raise (ValueError msg_missing)
      <-> field item "ferramenta" = EmptyString \/ field item "caminho" = EmptyString).
Proof.
  rewrite build_unfold.
  destruct (is_empty (field item "ferramenta")) eqn:Ht;
    [apply is_empty_true in Ht | apply is_empty_false in Ht];
  (destruct (is_empty (field item "caminho")) eqn:Hp;
    [apply is_empty_true in Hp | apply is_empty_false in Hp]); simpl;
  try (split; [intros cmd [=] | split; [intros e [= <-]; eauto | tauto]]).
  destruct (String.eqb (lower (field item "ferramenta")) "uipath").
  { split; [intros cmd [= <-]; repeat split; assumption || discriminate|].
    split; [intros e [=]|]. split; [intros [=] | tauto]. }
  destruct (_split_command_windows h (field item "caminho")) as [|entry rest].
  { split; [intros cmd [=]|]. split; [intros e [= <-]; eauto|].
    split; [intros [= E]; vm_compute in E; discriminate | tauto]. }
  cbv zeta.
  repeat match goal with
  | |- context [if ?b then _ else _] => destruct b
  end;
  (split; [intros cmd E; try discriminate E; injection E as <-;
           repeat split; assumption || discriminate|]);
  (split; [intros e E; try discriminate E; injection E as <-; eauto|]);
  (split; [intros E; try discriminate E; exfalso;
           injection E as E; vm_compute in E; discriminate | tauto]).
Qed.

Lemma builder_validates_and_never_returns_empty_witness :
  build_subprocess_command (host_with_file "script.py") sample_item
  = Ok ["python.exe"; "script.py"]
  /\ ["python.exe"; "script.py"] <> []
  /\ exists msg,
       build_subprocess_command host_without_files (mk_item "Proc" "" "script.py")
       = Raise (ValueError msg).
Proof.
  destruct (builder_validates_and_never_returns_empty
              (host_with_file "script.py") sample_item) as (Hok & _).
  destruct (Hok ["python.exe"; "script.py"]) as (Hne & _); [vm_compute; reflexivity|].
  destruct (builder_validates_and_never_returns_empty
              host_without_files (mk_item "Proc" "" "script.py")) as (_ & _ & _ & Hmiss).
  split; [vm_compute; reflexivity|]. split; [exact Hne|].
  exists msg_missing. apply Hmiss. left. vm_compute. reflexivity.
Defined.

(** X20. For every tool other than the reserved one, the command depends
    on the path alone: two complete items with the same trimmed path get
    the same command or the same error, whatever their tool names and
    display names are. *)
Theorem command_of_other_tools_depends_on_the_path_only
    (h : Host) (item item' : Item) :
  field item "caminho" = field item' "caminho" ->
  field item "ferramenta" <> EmptyString ->
  field item' "ferramenta" <> EmptyString ->
  lower (field item "ferramenta") <> "uipath" ->
  lower (field item' "ferramenta") <> "uipath" ->
  build_subprocess_command h item = build_subprocess_command h item'.
Proof.
  intros Hp Ht Ht' Hu Hu'. rewrite !build_unfold, <- Hp.
  apply is_empty_false in Ht, Ht'. apply String.eqb_neq in Hu, Hu'.
  rewrite Ht, Ht', Hu, Hu'. reflexivity.
Qed.

Lemma command_of_other_tools_depends_on_the_path_only_witness :
  build_subprocess_command host_without_files (mk_item "Proc" "Python" "script.exe")
  = build_subprocess_command host_without_files (mk_item "X" "other" " script.exe ").
Proof.
  apply (command_of_other_tools_depends_on_the_path_only host_without_files
           (mk_item "Proc" "Python" "script.exe") (mk_item "X" "other" " script.exe "));
    [reflexivity | discriminate | discriminate | discriminate | discriminate].
Defined.

(** X21. For a tool other than the reserved one, the extension of the
    resolved first token, compared without regard to letter case, decides
    the launcher: the running interpreter for .py and .pyw, the command
    shell with /c for .bat and .cmd, the PowerShell with -File for .ps1;
    the script and its arguments follow the launcher unchanged and in
    order. *)
Theorem script_extension_decides_the_launcher
    (h : Host) (item : Item) (entry : string) (rest prefix : list string) :
  field item "ferramenta" <> EmptyString ->
  lower (field item "ferramenta") <> "uipath" ->
  _split_command_windows h (field item "caminho") = entry :: rest ->
  launcher_prefix h (lower (snd (splitext entry))) = Some prefix ->
  build_subprocess_command h item = Ok (prefix ++ entry :: rest)%list.
Proof.
  intros Ht Hu Hs Hl. rewrite build_unfold.
  apply is_empty_false in Ht. apply String.eqb_neq in Hu. rewrite Ht, Hu.
  destruct (is_empty (field item "caminho")) eqn:Hp.
  { apply is_empty_true in Hp. rewrite Hp in Hs. discriminate. }
  cbn [orb]. rewrite Hs. cbv zeta. unfold launcher_prefix in Hl.
  destruct (one_of (lower (snd (splitext entry))) [".py"; ".pyw"]);
    [injection Hl as <-; reflexivity|].
  destruct (one_of (lower (snd (splitext entry))) [".bat"; ".cmd"]);
    [injection Hl as <-; reflexivity|].
  destruct (String.eqb (lower (snd (splitext entry))) ".ps1");
    [injection Hl as <-; reflexivity | discriminate].
Qed.

Lemma script_extension_decides_the_launcher_witness :
  build_subprocess_command (host_with_file "C:\jobs dir\Run.PY")
    (mk_item "X" "python" "C:\jobs dir\Run.PY --fast 3")
  = Ok ["python.exe"; "C:\jobs dir\Run.PY"; "--fast"; "3"].
Proof.
  apply (script_extension_decides_the_launcher (host_with_file "C:\jobs dir\Run.PY")
           (mk_item "X" "python" "C:\jobs dir\Run.PY --fast 3")
           "C:\jobs dir\Run.PY" ["--fast"; "3"] ["python.exe"]);
    [discriminate | discriminate | reflexivity | reflexivity].
Defined.

(** *** The quoting of the shortcut command *)



(** *** Putting the path back together *)

Lemma join_cons sep x (l : list string) :
  l <> [] -> join sep (x :: l) = x ++ sep ++ join sep l.
Proof. destruct l; [congruence | reflexivity]. Qed.

Lemma join_app sep (l1 l2 : list string) :
  l1 <> [] -> l2 <> [] ->
  join sep (l1 ++ l2) = join sep l1 ++ sep ++ join sep l2.
Proof.
  intros H1 H2. induction l1 as [|x l1 IH]; [congruence|].
  destruct l1 as [|y l1].
  - simpl app. rewrite (join_cons sep x l2 H2). reflexivity.
  - change ((x :: y :: l1) ++ l2)%list with (x :: ((y :: l1) ++ l2))%list.
    rewrite join_cons by discriminate. rewrite IH by discriminate.
    rewrite (join_cons sep x (y :: l1)) by discriminate.
    rewrite !append_assoc. reflexivity.
Qed.

Lemma join_prefix (l : list string) (i : nat) :
  (0 < i)%nat ->
  join " " (join " " (firstn i l) :: skipn i l) = join " " l.
Proof.
  intros Hi. destruct (skipn i l) as [|y rest] eqn:Hs.
  - simpl. rewrite <- (firstn_skipn i l) at 2. rewrite Hs, app_nil_r. reflexivity.
  - rewrite join_cons by discriminate.
    rewrite <- (firstn_skipn i l) at 2. rewrite Hs.
    rewrite join_app; [reflexivity | | discriminate].
    destruct l as [|x l]; [destruct i; discriminate|].
    destruct i; [lia | discriminate].
Qed.

Lemma find_prefix_some test tokens : forall n found,
  find_prefix test tokens n = Some found ->
  exists i, (0 < i <= n)%nat
    /\ found = join " " (firstn i tokens) :: skipn i tokens
    /\ test (join " " (firstn i tokens)) = true
    /\ forall j, (i < j <= n)%nat -> test (join " " (firstn j tokens)) = false.
Proof.
  induction n as [|n IH]; intros found; [discriminate|].
  cbn [find_prefix]. cbv zeta.
  destruct (test (join " " (firstn (S n) tokens))) eqn:Ht.
  - intros [= <-]. exists (S n). split; [lia|]. split; [reflexivity|].
    split; [exact Ht|]. intros j Hj. lia.
  - intros H. destruct (IH _ H) as (i & Hi & -> & Hti & Hmax).
    exists i. split; [lia|]. split; [reflexivity|]. split; [exact Hti|].
    intros j Hj. destruct (decide (j = S n)) as [->|]; [exact Ht | apply Hmax; lia].
Qed.

Lemma find_prefix_none test tokens : forall n,
  find_prefix test tokens n = None ->
  forall j, (0 < j <= n)%nat -> test (join " " (firstn j tokens)) = false.
Proof.
  induction n as [|n IH]; intros H j Hj; [lia|].
  cbn [find_prefix] in H. cbv zeta in H.
  destruct (test (join " " (firstn (S n) tokens))) eqn:Ht; [discriminate|].
  destruct (decide (j = S n)) as [->|]; [exact Ht | apply IH; [exact H | lia]].
Qed.

Lemma split_command_unfold h raw :
  is_empty (strip raw) = false -> path_exists h (strip raw) = false ->
  _split_command_windows h raw =
    let tokens := raw_tokens h (strip raw) in
    if (1 <? length tokens)%nat && negb (starts_with_quote (lstrip (strip raw))) then
      match find_prefix (path_isfile h) tokens (length tokens) with
      | Some found => found
      | None =>
          match find_prefix (path_exists h) tokens (length tokens) with
          | Some found => found
          | None => tokens
          end
      end
    else tokens.
Proof. intros He Hx. unfold _split_command_windows. rewrite He, Hx. reflexivity. Qed.

(** X23. When the text of a command is not itself an existing path,
    [_split_command_windows] only moves the end of the first token: the
    result, joined by blanks, is the token list of the tokenizer joined by
    blanks.  And when there are two tokens or more, the text does not
    start with a quote and some leading tokens joined by blanks name a
    regular file, the first token of the result is the longest such prefix
    and the remaining tokens follow it. *)
Theorem split_command_recombines_the_longest_file_prefix
    (h : Host) (raw : string) :
  strip raw <> EmptyString -> path_exists h (strip raw) = false ->
  let tokens := raw_tokens h (strip raw) in
  join " " (_split_command_windows h raw) = join " " tokens
  /\ forall i,
       (1 < length tokens)%nat -> starts_with_quote (lstrip (strip raw)) = false ->
       (0 < i <= length tokens)%nat ->
       path_isfile h (join " " (firstn i tokens)) = true ->
       exists k, (i <= k <= length tokens)%nat
         /\ path_isfile h (join " " (firstn k tokens)) = true
         /\ _split_command_windows h raw
            = join " " (firstn k tokens) :: skipn k tokens.
Proof.
  intros Hne Hx tokens. apply is_empty_false in Hne.
  rewrite (split_command_unfold h raw Hne Hx). cbv zeta. fold tokens. split.
  - destruct ((1 <? length tokens)%nat && negb (starts_with_quote (lstrip (strip raw))));
      [|reflexivity].
    destruct (find_prefix (path_isfile h) tokens (length tokens)) as [found|] eqn:Hf.
    { destruct (find_prefix_some _ _ _ _ Hf) as (i & Hi & -> & _).
      apply join_prefix. lia. }
    destruct (find_prefix (path_exists h) tokens (length tokens)) as [found|] eqn:He;
      [|reflexivity].
    destruct (find_prefix_some _ _ _ _ He) as (i & Hi & -> & _).
    apply join_prefix. lia.
  - intros i Hlen Hq Hi Hfile.
    apply Nat.ltb_lt in Hlen. rewrite Hlen, Hq. simpl.
    destruct (find_prefix (path_isfile h) tokens (length tokens)) as [found|] eqn:Hf.
    + destruct (find_prefix_some _ _ _ _ Hf) as (k & Hk & -> & Htk & Hmax).
      exists k. split; [|split; [exact Htk | reflexivity]].
      destruct (decide (i <= k)%nat) as [|Hgt]; [lia|].
      rewrite (Hmax i) in Hfile by lia. discriminate.
    + rewrite (find_prefix_none _ _ _ Hf i Hi) in Hfile. discriminate.
Qed.

Lemma split_command_recombines_the_longest_file_prefix_witness :
  _split_command_windows (host_with_file "C:\my dir\s.py") " C:\my dir\s.py a b "
  = ["C:\my dir\s.py"; "a"; "b"].
Proof.
  destruct (split_command_recombines_the_longest_file_prefix
              (host_with_file "C:\my dir\s.py") " C:\my dir\s.py a b ")
    as [_ H]; [vm_compute; discriminate | reflexivity |].
  destruct (H 2%nat) as (k & Hk & Hfile & ->);
    [vm_compute; lia | reflexivity | vm_compute; lia | reflexivity |].
  change (length (raw_tokens (host_with_file "C:\my dir\s.py")
                    (strip " C:\my dir\s.py a b "))) with 4%nat in Hk.
  assert (Hcases : k = 2%nat \/ k = 3%nat \/ k = 4%nat) by lia.
  destruct Hcases as [->|[->| ->]]; [reflexivity | |]; vm_compute in Hfile; discriminate.
Defined.

End BuilderFacts.

(** ** run_item *)

Module RunnerFacts.
Import PyStr PyStrFacts Eff Orchestrator Executor Vocabulary ExecutorFacts Terms.
Import BuilderFacts Runner.

Lemma subprocess_run_effects launch cmd capture :
  snd (subprocess_run launch cmd capture) = [Run cmd capture].
Proof.
  unfold subprocess_run. destruct (launch cmd) as [code|msg]; [|reflexivity].
  destruct (code =? 0); reflexivity.
Qed.

Lemma subprocess_run_done launch cmd capture :
  fst (subprocess_run launch cmd capture) = Done <-> launch cmd = inl 0.
Proof.
  unfold subprocess_run. destruct (launch cmd) as [code|msg]; simpl.
  - destruct (Z.eqb_spec code 0) as [->|Hc]; simpl; split; try congruence.
  - split; congruence.
Qed.

(** X24. The pause of twenty seconds belongs to the reserved tool alone
    and follows a successful run: [run_item] sleeps, and then for 20
    seconds, exactly when the tool is uipath in any letter case and the
    command it built ended with the exit code zero.  For every other tool,
    and after a failed run, it never sleeps. *)
Theorem run_item_sleeps_only_after_a_successful_uipath_run
    (h : Host) (launch : list string -> Z + string) (item : Item) (seconds : Z) :
  In (Sleep seconds) (snd (run_item h launch item))
  <-> seconds = 20
      /\ lower (field item "ferramenta") = "uipath"
      /\ exists cmd, build_subprocess_command h item = Ok cmd /\ launch cmd = inl 0.
Proof.
  unfold run_item.
  destruct (build_subprocess_command h item) as [cmd|e] eqn:Hb; simpl.
  2:{ split; [intros [] | intros (_ & _ & cmd & [=] & _)]. }
  destruct (String.eqb_spec (lower (field item "ferramenta")) "uipath") as [Hu|Hu].
  - pose proof (subprocess_run_effects launch cmd true) as He.
    pose proof (subprocess_run_done launch cmd true) as Hd.
    destruct (subprocess_run launch cmd true) as [[| | |] effects]; simpl in *; subst.
    + split.
      * intros [[=]|[[= <-]|[]]]. split; [reflexivity|]. split; [exact Hu|].
        exists cmd. split; [reflexivity | apply Hd; reflexivity].
      * intros (-> & _). simpl. tauto.
    + split; [intros [[=]|[]]|]. intros (_ & _ & c & [= <-] & Hl).
      apply Hd in Hl. discriminate.
    + split; [intros [[=]|[]]|]. intros (_ & _ & c & [= <-] & Hl).
      apply Hd in Hl. discriminate.
    + split; [intros [[=]|[]]|]. intros (_ & _ & c & [= <-] & Hl).
      apply Hd in Hl. discriminate.
  - rewrite subprocess_run_effects. split; [intros [[=]|[]]|]. intros (_ & E & _).
    congruence.
Qed.

(** X25. [run_item] starts at most one process, and only the command the
    builder returned, capturing the output for the reserved tool alone; an
    item the builder refuses starts nothing and ends with the error of the
    builder; and the run ends normally only when the process ended with
    the exit code zero. *)
Theorem run_item_starts_the_built_command_once
    (h : Host) (launch : list string -> Z + string) (item : Item) :
  (forall e, build_subprocess_command h item = Raise e ->
     run_item h launch item = (BuildError e, []))
  /\ (forall cmd, build_subprocess_command h item = Ok cmd ->
        List.filter (fun ef => match ef with Run _ _ => true | Sleep _ => false end)
          (snd (run_item h launch item))
        = [Run cmd (String.eqb (lower (field item "ferramenta")) "uipath")])
  /\ (fst (run_item h launch item) = Done ->
        exists cmd, build_subprocess_command h item = Ok cmd /\ launch cmd = inl 0)
  /\ (forall code cmd, build_subprocess_command h item = Ok cmd ->
        launch cmd = inl code -> code <> 0 ->
        fst (run_item h launch item) = CalledProcessError code cmd).
Proof.
  unfold run_item.
  destruct (build_subprocess_command h item) as [cmd|e] eqn:Hb.
  2:{ split; [intros e' [= <-]; reflexivity|]. split; [intros c [=]|].
      split; [intros [=] | intros c0 c [=]]. }
  split; [intros e [=]|].
  pose proof (subprocess_run_effects launch cmd) as He.
  pose proof (subprocess_run_done launch cmd) as Hd.
  destruct (String.eqb (lower (field item "ferramenta")) "uipath").
  - specialize (He true). specialize (Hd true).
    split; [|split].
    + intros c [= <-].
      destruct (subprocess_run launch cmd true) as [[| | |] effects];
        simpl in *; subst; reflexivity.
    + intros H. exists cmd. split; [reflexivity|]. apply Hd.
      destruct (subprocess_run launch cmd true) as [[| | |] effects];
        simpl in *; congruence.
    + intros code c [= <-] Hl Hc. unfold subprocess_run. rewrite Hl.
      apply Z.eqb_neq in Hc. rewrite Hc. reflexivity.
  - specialize (He false). specialize (Hd false).
    split; [|split].
    + intros c [= <-]. rewrite He. reflexivity.
    + intros H. exists cmd. split; [reflexivity | apply Hd, H].
    + intros code c [= <-] Hl Hc. unfold subprocess_run. rewrite Hl.
      apply Z.eqb_neq in Hc. rewrite Hc. reflexivity.
Qed.

Lemma run_item_starts_the_built_command_once_witness :
  fst (run_item (host_with_file "script.py") (fun _ => inl 3) sample_item)
  = CalledProcessError 3 ["python.exe"; "script.py"]
  /\ snd (run_item (host_with_file "script.py") (fun _ => inl 3) sample_item)
     = [Run ["python.exe"; "script.py"] false].
Proof.
  destruct (run_item_starts_the_built_command_once
              (host_with_file "script.py") (fun _ => inl 3) sample_item)
    as (_ & _ & _ & Hfail).
  split; [apply Hfail; [vm_compute; reflexivity | reflexivity | discriminate]|].
  vm_compute. reflexivity.
Defined.

End RunnerFacts.

(** * The controller: starting, finishing and cancelling jobs *)

Module DispatchFacts.
Import PyStr Eff Models Util DB Orchestrator Executor Controller Vocabulary.
Import Dispatch Terms TickFacts.


(** The first steps of [_drain_queue_if_idle] when the controller is idle
    and a job is queued: the job leaves the queue, the queue is published
    and the job becomes the running item. *)
Lemma drain_takes_the_head h c item rest :
  is_not_running (_process c) = true ->
  snapshot (queue c) = item :: rest ->
  _drain_queue_if_idle h c
  = _start_item h item
      (mkController
         (mkScheduler (db (_scheduler c)) (mkQueue rest)
            (poll_seconds (_scheduler c)) (log_to_db (_scheduler c))
            (_guard (_scheduler c)) (logging (_scheduler c)))
         (_timer_active c) (_process c) (_running_scheduler c) (Some item)
         (emitted c ++ [queue_changed rest; running_item_changed (Some item)])%list).
Proof.
  unfold snapshot, queue. intros Hidle Hq.
  unfold _drain_queue_if_idle, bind, gets, try_except, on_scheduler, on_queue,
    get, ret, empty, queue.
  rewrite Hidle. simpl. rewrite Hq. simpl.
  unfold _emit_queue_changed, bind, gets, emit, modify, set_running_item,
    modify, queue, snapshot. simpl.
  rewrite ?Hq. simpl. rewrite <- app_assoc. reflexivity.
Qed.




(** X27. When the command of the oldest job cannot be built, the idle
    controller raises the error of the builder after it has taken the job
    from the queue: the job is lost from the queue and stays recorded as
    the running item, although no process is started and nothing is
    logged; the other jobs stay queued. *)
Theorem drain_loses_a_job_that_cannot_be_built
    (h : Host) (c : OrchestratorController) (item : Item) (rest : list Item)
    (e : exn) :
  is_not_running (_process c) = true ->
  snapshot (queue c) = item :: rest ->
  build_subprocess_command h item = Raise e ->
  exists c',
    _drain_queue_if_idle h c = (Raise e, c')
    /\ _process c' = _process c
    /\ _running_item c' = Some item
    /\ snapshot (queue c') = rest
    /\ emitted c'
       = (emitted c ++ [queue_changed rest; running_item_changed (Some item)])%list
    /\ db (_scheduler c') = db (_scheduler c)
    /\ can_cancel_current_process c' = false.
Proof.
  intros Hidle Hq Hb. rewrite (drain_takes_the_head h c item rest Hidle Hq).
  unfold _start_item. rewrite Hb. unfold raise. eexists. split; [reflexivity|].
  unfold can_cancel_current_process. simpl. rewrite Hidle. repeat split; reflexivity.
Qed.

Lemma drain_loses_a_job_that_cannot_be_built_witness :
  exists c',
    _drain_queue_if_idle host_without_files
      (controller_with (mkDB [] [] []) [mk_item "Proc" "" ""; other_item]
         NotRunning None)
    = (Raise (ValueError msg_missing), c')
    /\ _running_item c' = Some (mk_item "Proc" "" "")
    /\ snapshot (queue c') = [other_item].
Proof.
  destruct (drain_loses_a_job_that_cannot_be_built host_without_files
              (controller_with (mkDB [] [] []) [mk_item "Proc" "" ""; other_item]
                 NotRunning None)
              (mk_item "Proc" "" "") [other_item] (ValueError msg_missing))
    as (c' & Hd & _ & Hr & Hq & _);
    [reflexivity | reflexivity | vm_compute; reflexivity |].
  exists c'. auto.
Defined.

(** X28. A request to cancel never fails and never touches the queue, the
    running item or the state of the process.  It kills the process
    exactly when a job is running that counts as Python (by its tool or by
    the extension of its path); a running job of another kind gets the
    refusal logged, and nothing at all happens when no process runs. *)
Theorem cancel_kills_only_a_running_python_job (d : Desk) :
  exists d',
    stop_current_process d = (Ok tt, d')
    /\ kill_calls d'
       = (if can_cancel_current_process (ctrl d)
          then S (kill_calls d) else kill_calls d)
    /\ emitted (ctrl d')
       = (emitted (ctrl d)
            ++ (if is_process_running (ctrl d)
                then [log_text (if can_cancel_current_process (ctrl d)
                                then msg_cancelling else msg_cancel_refused)]
                else []))%list
    /\ _process (ctrl d') = _process (ctrl d)
    /\ _running_item (ctrl d') = _running_item (ctrl d)
    /\ queue (ctrl d') = queue (ctrl d).
Proof.
  unfold stop_current_process, bind at 1, gets, is_process_running.
  destruct (is_not_running (_process (ctrl d))) eqn:Hidle.
  - exists d. unfold can_cancel_current_process. rewrite Hidle. simpl.
    rewrite app_nil_r. repeat split; reflexivity.
  - simpl. destruct (can_cancel_current_process (ctrl d)) eqn:Hc; simpl.
    + unfold bind, on_ctrl.
      destruct (append_log_outcome msg_cancelling "log" (ctrl d))
        as (c1 & -> & He & Hq & _ & _ & Hp & Hr & _).
      unfold kill, modify. eexists. split; [reflexivity|]. simpl.
      unfold queue. rewrite He, Hq, Hp, Hr. repeat split; reflexivity.
    + unfold on_ctrl.
      destruct (append_log_outcome msg_cancel_refused "log" (ctrl d))
        as (c1 & -> & He & Hq & _ & _ & Hp & Hr & _).
      eexists. split; [reflexivity|]. simpl.
      unfold queue. rewrite He, Hq, Hp, Hr. repeat split; reflexivity.
Qed.





End DispatchFacts.
